(** * goconfig: layered configuration loading, checked against its specification

    A shallow embedding of [goconfig.go]: the reflection-driven zero test
    ([isZero]), the required-field validator ([findMissingRequiredFields]),
    the [Config] bookkeeping record with its debug-level ordering, [Load]
    and [ListenForSignals].

    Go values that the package inspects through [reflect] are trees of type
    [reflect.govalue]; a [reflect.Value] is such a tree together with the
    two permission bits of Go's reflection ([flagAddr], [flagRO]) on which
    [CanSet] and [Interface] depend. *)

From stdpp Require Import gmap strings list.
From Stdlib Require Import ZArith Lia.

Local Open Scope string_scope.
Local Open Scope list_scope.
Set Warnings "-register-all".

(** ** Results of Go calls that can panic *)

Inductive exec (A : Type) : Type :=
| Ret (a : A)
| Panic (msg : string).
Arguments Ret {A} a.
Arguments Panic {A} msg.

#[global] Instance exec_ret : MRet exec := fun A a => Ret a.
#[global] Instance exec_bind : MBind exec := fun A B k m =>
  match m with
  | Ret a => k a
  | Panic msg => Panic msg
  end.

(** ** The part of package [reflect] that goconfig uses *)

Module reflect.

Inductive Kind : Set :=
| Invalid | Bool
| Int | Int8 | Int16 | Int32 | Int64
| Uint | Uint8 | Uint16 | Uint32 | Uint64 | Uintptr
| Float32 | Float64 | Complex64 | Complex128
| Array | Chan | Func | Interface | Map | Ptr | Slice | String | Struct
| UnsafePointer.

#[global] Instance Kind_eq_dec : EqDecision Kind.
Proof. solve_decision. Defined.

(** Go's predeclared numeric types. *)
Inductive IntType : Set :=
| int | int8 | int16 | int32 | int64
| uint | uint8 | uint16 | uint32 | uint64 | uintptr.
Inductive FloatType : Set := float32 | float64.
Inductive ComplexType : Set := complex64 | complex128.

Definition IntType_Kind (t : IntType) : Kind :=
  match t with
  | int => Int | int8 => Int8 | int16 => Int16 | int32 => Int32
  | int64 => Int64 | uint => Uint | uint8 => Uint8 | uint16 => Uint16
  | uint32 => Uint32 | uint64 => Uint64 | uintptr => Uintptr
  end.

(** A struct tag, already split into its [key:"value"] pairs, in the
    order in which they are written. *)
Definition StructTag : Type := list (string * string).

(** [StructTag.Get]: the value of the first pair with that key, the
    empty string when there is none. *)
Fixpoint Get (tag : StructTag) (key : string) : string :=
  match tag with
  | [] => ""
  | (k, v) :: rest => if bool_decide (k = key) then v else Get rest key
  end.

(** [reflect.StructField]: [PkgPath] is empty exactly for exported
    fields, [Anonymous] marks an embedded field. *)
Record StructField : Type := mkStructField {
  Name : string;
  PkgPath : string;
  Anonymous : bool;
  Tag : StructTag
}.

Definition IsExported (sf : StructField) : bool :=
  bool_decide (PkgPath sf = "").

(** Go values as reflection shows them.  Floats are kept as their IEEE
    bit patterns; references are [None] when nil.  A channel, a function
    and an unsafe pointer are identified by a number. *)
Inductive govalue : Type :=
| VBool (b : bool)
| VInt (t : IntType) (n : Z)
| VFloat (t : FloatType) (bits : Z)
| VComplex (t : ComplexType) (re_bits im_bits : Z)
| VString (s : string)
| VChan (ch : option nat)
| VFunc (fn : option nat)
| VUnsafePointer (addr : N)
| VInterface (elem : option govalue)
| VMap (m : option (list (govalue * govalue)))
| VSlice (s : option (list govalue))
| VArray (elems : list govalue)
| VStruct (fields : list (StructField * govalue))
| VPtr (pointee : option govalue).

Definition Kind_of (d : govalue) : Kind :=
  match d with
  | VBool _ => Bool
  | VInt t _ => IntType_Kind t
  | VFloat float32 _ => Float32
  | VFloat float64 _ => Float64
  | VComplex complex64 _ _ => Complex64
  | VComplex complex128 _ _ => Complex128
  | VString _ => String
  | VChan _ => Chan
  | VFunc _ => Func
  | VUnsafePointer _ => UnsafePointer
  | VInterface _ => Interface
  | VMap _ => Map
  | VSlice _ => Slice
  | VArray _ => Array
  | VStruct _ => Struct
  | VPtr _ => Ptr
  end.

(** The read-only bits of a [Value]: [flagStickyRO] (reached through an
    unexported, not embedded field), [flagEmbedRO] (reached through an
    unexported embedded field). *)
Inductive ROFlag : Set := RW | StickyRO | EmbedRO.

Record flag : Set := mkFlag { flagAddr : bool; flagRO : ROFlag }.

Record Value : Type := mkValue { flags : flag; data : govalue }.

(** [reflect.ValueOf] of a non-nil interface: neither addressable nor
    read-only. *)
Definition ValueOf (d : govalue) : Value := mkValue (mkFlag false RW) d.

Definition Kind_ (v : Value) : Kind := Kind_of (data v).

Definition is_ro (f : flag) : bool :=
  match flagRO f with RW => false | _ => true end.

(** [Value.CanSet]: addressable and not obtained through an unexported
    field. *)
Definition CanSet_flag (f : flag) : bool := flagAddr f && negb (is_ro f).
Definition CanSet (v : Value) : bool := CanSet_flag (flags v).

(** The flags of [v.Field(i)]: the address bit and [flagStickyRO] are
    inherited, [flagEmbedRO] is not; an unexported field adds its own
    read-only bit. *)
Definition Field_flag (f : flag) (sf : StructField) : flag :=
  let inherited := match flagRO f with StickyRO => StickyRO | _ => RW end in
  mkFlag (flagAddr f)
    (if IsExported sf then inherited
     else if Anonymous sf
          then (match inherited with StickyRO => StickyRO | _ => EmbedRO end)
          else StickyRO).

(** The flags of [v.Index(i)] on an array: any read-only bit becomes
    [flagStickyRO]. *)
Definition Index_flag (f : flag) : flag :=
  mkFlag (flagAddr f) (if is_ro f then StickyRO else RW).

(** The flags of [v.Elem()] on a pointer ([reflect.Indirect]): the
    pointee is addressable, read-only bits are kept. *)
Definition Elem_flag (f : flag) : flag := mkFlag true (flagRO f).

(** [Value.IsNil], for the kinds on which goconfig calls it. *)
Definition IsNil (d : govalue) : bool :=
  match d with
  | VChan None | VFunc None | VInterface None | VMap None
  | VSlice None | VPtr None => true
  | VUnsafePointer a => bool_decide (a = 0%N)
  | _ => false
  end.

(** Is a float with these bits equal to 0?  Both signed zeros are, and
    nothing else: the sign bit is the top one of the [w] bits. *)
Definition float_is_zero (w : Z) (bits : Z) : bool :=
  bool_decide (Z.land bits (Z.ones (w - 1)) = 0%Z).

Definition FloatType_bits (t : FloatType) : Z :=
  match t with float32 => 32 | float64 => 64 end.
Definition ComplexType_part_bits (t : ComplexType) : Z :=
  match t with complex64 => 32 | complex128 => 64 end.

(** [v.Interface() == reflect.Zero(v.Type()).Interface()] for a value
    that may be boxed: Go's [==] on two interfaces of the same dynamic
    type.  For an interface-kinded [v] both sides are the element
    inside, so the test is whether [v] holds nothing. *)
Definition equals_Zero (d : govalue) : bool :=
  match d with
  | VBool b => negb b
  | VInt _ n => bool_decide (n = 0%Z)
  | VFloat t bits => float_is_zero (FloatType_bits t) bits
  | VComplex t re im =>
      float_is_zero (ComplexType_part_bits t) re
      && float_is_zero (ComplexType_part_bits t) im
  | VString s => bool_decide (s = "")
  | VChan ch => bool_decide (ch = None)
  | VUnsafePointer a => bool_decide (a = 0%N)
  | VInterface elem => match elem with None => true | Some _ => false end
  | _ => false
  end.

(** [v.Interface() == reflect.Zero(v.Type()).Interface()] on a [Value].
    [Value.Interface] "panics if the Value was obtained by accessing
    unexported struct fields" (package documentation); [Zero] and the
    comparison cannot fail here. *)
Definition Interface_equals_Zero (v : Value) : exec bool :=
  if is_ro (flags v)
  then Panic "reflect.Value.Interface: cannot return value obtained from unexported field or method"
  else Ret (equals_Zero (data v)).

End reflect.

(** ** Package goconfig: constants and the [Config] record *)

Definition DebugError : Z := 0.
Definition DebugWarning : Z := 1.
Definition DebugInfo : Z := 2.
Definition DebugVerbose : Z := 3.

Definition debugLevelMap : gmap string Z :=
  <["error" := DebugError]>
  (<["warning" := DebugWarning]>
  (<["info" := DebugInfo]>
  (<["verbose" := DebugVerbose]> ∅))).

(** Indexing a Go map: the element type's zero value for an absent key. *)
Definition map_index (m : gmap string Z) (key : string) : Z :=
  default 0%Z (m !! key).

Module sync.

(** [sync.Mutex], seen by one goroutine: held or free. *)
Record Mutex : Set := mkMutex { locked : bool }.

(** [Lock] on a held mutex does not return until somebody else releases
    it: [None]. *)
Definition Lock (m : Mutex) : option Mutex :=
  if locked m then None else Some (mkMutex true).

(** [Unlock] on a free mutex is a fatal runtime error: [None]. *)
Definition Unlock (m : Mutex) : option Mutex :=
  if locked m then Some (mkMutex false) else None.

End sync.

(** [Config] will contain the config loaded from the yaml file. *)
Record Config : Type := mkConfig {
  Debug : string;
  filename : string;
  listening : bool;
  Mutex : sync.Mutex
}.

Definition Config_GetFilename (c : Config) : string := filename c.

Definition Config_SetFilename (c : Config) (name : string) : Config :=
  mkConfig (Debug c) name (listening c) (Mutex c).

Definition Config_IsListening (c : Config) : bool := listening c.

Definition Config_SetListening (c : Config) (l : bool) : Config :=
  mkConfig (Debug c) (filename c) l (Mutex c).

Definition Config_Lock (c : Config) : option Config :=
  m ← sync.Lock (Mutex c); Some (mkConfig (Debug c) (filename c) (listening c) m).

Definition Config_Unlock (c : Config) : option Config :=
  m ← sync.Unlock (Mutex c); Some (mkConfig (Debug c) (filename c) (listening c) m).

Definition DebugLevel (c : Config) (level : string) : bool :=
  (map_index debugLevelMap (Debug c) >=? map_index debugLevelMap level)%Z.

(** ** Errors *)

Inductive error : Type :=
| errors_New (text : string)
| MissingRequiredStructFields (missing : list string)
| os_error (text : string)
| yaml_error (text : string)
| env_error (text : string).

#[global] Instance error_eq_dec : EqDecision error.
Proof. solve_decision. Defined.

(** ** The zero test *)

(** [z = z && isZero(x)]: Go's [&&] does not evaluate its right operand
    when the left one is false. *)
Definition and_then (z : bool) (rhs : exec bool) : exec bool :=
  if z then rhs else Ret false.

Fixpoint isZero_at (f : reflect.flag) (d : reflect.govalue) {struct d} : exec bool :=
  match d with
  | reflect.VFunc _ | reflect.VMap _ | reflect.VSlice _ =>
      Ret (reflect.IsNil d)
  | reflect.VArray elems =>
      (fix loop (z : bool) (rest : list reflect.govalue) {struct rest} : exec bool :=
         match rest with
         | [] => Ret z
         | e :: rest' =>
             z' ← and_then z (isZero_at (reflect.Index_flag f) e);
             loop z' rest'
         end) true elems
  | reflect.VStruct fields =>
      (fix loop (z : bool) (rest : list (reflect.StructField * reflect.govalue))
           {struct rest} : exec bool :=
         match rest with
         | [] => Ret z
         | (sf, e) :: rest' =>
             if reflect.CanSet_flag (reflect.Field_flag f sf)
             then z' ← and_then z (isZero_at (reflect.Field_flag f sf) e);
                  loop z' rest'
             else loop z rest'
         end) true fields
  | reflect.VPtr _ =>
      Ret (reflect.IsNil d)
  | _ =>
      reflect.Interface_equals_Zero (reflect.mkValue f d)
  end.

Definition isZero (v : reflect.Value) : exec bool :=
  isZero_at (reflect.flags v) (reflect.data v).

(** ** The required-field validator *)

(** The loop over the fields of the struct, [missing] being the slice
    built so far. *)
Fixpoint collect_missing (f : reflect.flag)
    (fields : list (reflect.StructField * reflect.govalue))
    (missing : list string) : exec (list string) :=
  match fields with
  | [] => Ret missing
  | (sf, e) :: rest =>
      if bool_decide (reflect.Get (reflect.Tag sf) "required" = "true")
      then z ← isZero (reflect.mkValue (reflect.Field_flag f sf) e);
           collect_missing f rest
             (if (z : bool) then missing ++ [reflect.Name sf] else missing)
      else collect_missing f rest missing
  end.

(** The [for]/[switch] of [findMissingRequiredFields], on the value
    reached so far. *)
Fixpoint findMissing_at (f : reflect.flag) (d : reflect.govalue) {struct d}
    : exec (option error) :=
  match d with
  | reflect.VStruct fields =>
      missing ← collect_missing f fields [];
      match missing with
      | [] => Ret None
      | _ => Ret (Some (MissingRequiredStructFields missing))
      end
  | reflect.VPtr None => Ret (Some (errors_New "nil pointer!"))
  | reflect.VPtr (Some d') => findMissing_at (reflect.Elem_flag f) d'
  | _ => Ret (Some (errors_New "Not a struct!"))
  end.

(** [val] is an [interface{}]: [None] is the nil interface, whose
    [reflect.ValueOf] has kind [Invalid]. *)
Definition findMissingRequiredFields (val : option reflect.govalue)
    : exec (option error) :=
  match val with
  | None => Ret (Some (errors_New "Not a struct!"))
  | Some d => findMissing_at (reflect.flags (reflect.ValueOf d)) d
  end.

(** [MissingRequiredStructFields.Error]: [fmt.Sprintf("%v", missing)]
    writes the names between brackets, separated by one space, and
    [strings.Trim(_, "[]")] drops every leading and trailing bracket. *)
Fixpoint join (sep : string) (names : list string) : string :=
  match names with
  | [] => ""
  | [n] => n
  | n :: rest => n +:+ sep +:+ join sep rest
  end.

Definition Sprintf_v (names : list string) : string := "[" +:+ join " " names +:+ "]".

Fixpoint TrimLeft (cutset : list Ascii.ascii) (s : list Ascii.ascii) : list Ascii.ascii :=
  match s with
  | [] => []
  | a :: rest => if bool_decide (a ∈ cutset) then TrimLeft cutset rest else s
  end.

Definition Trim (s cutset : string) : string :=
  let cs := String.list_ascii_of_string cutset in
  String.string_of_list_ascii
    (rev (TrimLeft cs (rev (TrimLeft cs (String.list_ascii_of_string s))))).

Definition Error (e : error) : string :=
  match e with
  | errors_New text => text
  | MissingRequiredStructFields missing =>
      "The following struct fields have missing values: "
      +:+ Trim (Sprintf_v missing) "[]"
  | os_error text => text
  | yaml_error text => text
  | env_error text => text
  end.

(** ** The [Configterface] interface *)

Class Configterface (T : Type) : Type := {
  GetFilename : T → string;
  IsListening : T → bool;
  SetListening : T → bool → T;
  (** [None]: the call does not return (the guard is held). *)
  Lock : T → option T;
  (** [None]: fatal error (the guard is not held). *)
  Unlock : T → option T;
  (** The value the methods are declared on, as package [reflect] sees it. *)
  reflect_value : T → reflect.govalue
}.

(** The dynamic value of a [Configterface] argument: a pointer to the
    object, or the object itself. *)
Inductive Boxed (T : Type) : Type :=
| ByPointer (obj : T)
| ByValue (obj : T).
Arguments ByPointer {T} obj.
Arguments ByValue {T} obj.

Definition obj_of {T} (c : Boxed T) : T :=
  match c with ByPointer t | ByValue t => t end.

(** The same interface value, when the object it designates holds [t]. *)
Definition at_state {T} (c : Boxed T) (t : T) : Boxed T :=
  match c with ByPointer _ => ByPointer t | ByValue _ => ByValue t end.

(** The argument converted to [interface{}], as [reflect.ValueOf]
    receives it. *)
Definition as_any {T} `{Configterface T} (c : Boxed T) : reflect.govalue :=
  match c with
  | ByPointer t => reflect.VPtr (Some (reflect_value t))
  | ByValue t => reflect_value t
  end.

(** ** Runs: outcome, final object, and what happened in order *)

Inductive outcome (A : Type) : Type :=
| Done (a : A)
| Panicked (msg : string)
| Blocked
| Fatal (msg : string).
Arguments Done {A} a.
Arguments Panicked {A} msg.
Arguments Blocked {A}.
Arguments Fatal {A} msg.

Inductive event : Set :=
| ReadFile_ev (path : string)
| Lock_ev
| Unlock_ev
| Unmarshal_ev
| Parse_ev
| Validate_ev
| SetListening_ev (l : bool)
| Notify_ev
| Go_ev.

#[global] Instance event_eq_dec : EqDecision event.
Proof. solve_decision. Defined.

Definition M (T A : Type) : Type := T → outcome A * T * list event.

#[global] Instance M_ret T : MRet (M T) := fun A a t => (Done a, t, []).
#[global] Instance M_bind T : MBind (M T) := fun A B k m t =>
  match m t with
  | (Done a, t1, tr1) =>
      match k a t1 with (o, t2, tr2) => (o, t2, tr1 ++ tr2) end
  | (Panicked msg, t1, tr1) => (Panicked msg, t1, tr1)
  | (Blocked, t1, tr1) => (Blocked, t1, tr1)
  | (Fatal msg, t1, tr1) => (Fatal msg, t1, tr1)
  end.

Definition panic {T A} (msg : string) : M T A := fun t => (Panicked msg, t, []).

(** [defer d; body]: [d] runs when [body] returns or panics; a goroutine
    that is stuck or dead runs nothing more. *)
Definition defer {T A} (d : M T ()) (body : M T A) : M T A := fun t =>
  match body t with
  | (Blocked, t1, tr1) => (Blocked, t1, tr1)
  | (Fatal msg, t1, tr1) => (Fatal msg, t1, tr1)
  | (o, t1, tr1) =>
      match d t1 with
      | (Done _, t2, tr2) => (o, t2, tr1 ++ tr2)
      | (Panicked msg, t2, tr2) => (Panicked msg, t2, tr1 ++ tr2)
      | (Blocked, t2, tr2) => (Blocked, t2, tr1 ++ tr2)
      | (Fatal msg, t2, tr2) => (Fatal msg, t2, tr1 ++ tr2)
      end
  end.

Section Loader.

Context {T : Type} `{Configterface T}.

(** The collaborators: the file system, the YAML decoder and the
    environment decoder.  The decoders write into the object they are
    given and report an error or none. *)
Variable ioutil_ReadFile : string → list Byte.byte + error.
Variable yaml_Unmarshal : list Byte.byte → T → T * option error.
Variable env_Parse : T → T * option error.

Definition call_ReadFile : M T (list Byte.byte + error) := fun t =>
  (Done (ioutil_ReadFile (GetFilename t)), t, [ReadFile_ev (GetFilename t)]).

Definition call_Lock : M T () := fun t =>
  match Lock t with
  | Some t' => (Done (), t', [Lock_ev])
  | None => (Blocked, t, [])
  end.

Definition call_Unlock : M T () := fun t =>
  match Unlock t with
  | Some t' => (Done (), t', [Unlock_ev])
  | None => (Fatal "sync: unlock of unlocked mutex", t, [])
  end.

Definition call_Unmarshal (data : list Byte.byte) : M T (option error) := fun t =>
  match yaml_Unmarshal data t with (t', err) => (Done err, t', [Unmarshal_ev]) end.

Definition call_Parse : M T (option error) := fun t =>
  match env_Parse t with (t', err) => (Done err, t', [Parse_ev]) end.

Definition call_findMissingRequiredFields (c : Boxed T) : M T (option error) := fun t =>
  match findMissingRequiredFields (Some (as_any (at_state c t))) with
  | Ret err => (Done err, t, [Validate_ev])
  | Panic msg => (Panicked msg, t, [Validate_ev])
  end.

Definition call_IsListening : M T bool := fun t => (Done (IsListening t), t, []).

Definition call_SetListening (l : bool) : M T () := fun t =>
  (Done (), SetListening t l, [SetListening_ev l]).

Definition emit (e : event) : M T () := fun t => (Done (), t, [e]).

(** Loads (or reloads) the config file from disk. *)
Definition Load_body (c : Boxed T) : M T (option error) :=
  if bool_decide (reflect.Kind_of (as_any c) ≠ reflect.Ptr)
  then panic "Load only accepts pointers to structs"
  else
    rd ← call_ReadFile;
    call_Lock;;
    defer call_Unlock (
      err ← match rd with
            | inl data => call_Unmarshal data
            | inr _ => mret None
            end;
      match err with
      | Some e => mret (Some e)
      | None =>
          err ← call_Parse;
          match err with
          | Some e => mret (Some e)
          | None =>
              err ← call_findMissingRequiredFields c;
              match err with
              | Some e => mret (Some e)
              | None => mret None
              end
          end
      end).

Definition Load (c : Boxed T) : outcome (option error) * T * list event :=
  Load_body c (obj_of c).

(** Reloads the config file on SIGHUP.  [Go_ev] stands for the start of
    the goroutine that calls [on_SIGHUP] for each signal received. *)
Definition ListenForSignals_body (c : Boxed T) : M T () :=
  if bool_decide (reflect.Kind_of (as_any c) ≠ reflect.Ptr)
  then panic "ListenForSignals only accepts pointers to structs"
  else
    call_Lock;;
    defer call_Unlock (
      l ← call_IsListening;
      if (l : bool) then mret ()
      else
        call_SetListening true;;
        emit Notify_ev;;
        emit Go_ev).

Definition ListenForSignals (c : Boxed T) : outcome () * T * list event :=
  ListenForSignals_body c (obj_of c).

(** One turn of the goroutine's loop, after a signal has arrived. *)
Definition on_SIGHUP (c : Boxed T) : M T () :=
  err ← Load_body c;
  match err with
  | Some e => panic ("config file error: " +:+ Error e)
  | None => mret ()
  end.

End Loader.

(** ** Implementations of [Configterface] *)

Definition goconfig_path : string := "github.com/santiclause/goconfig".

Definition Mutex_value (m : sync.Mutex) : reflect.govalue :=
  reflect.VStruct
    [ (reflect.mkStructField "state" "sync" false [],
       reflect.VInt reflect.int32 (if sync.locked m then 1 else 0));
      (reflect.mkStructField "sema" "sync" false [],
       reflect.VInt reflect.uint32 0) ].

Definition Config_value (c : Config) : reflect.govalue :=
  reflect.VStruct
    [ (reflect.mkStructField "Debug" "" false [("yaml", "debug"); ("env", "DEBUG")],
       reflect.VString (Debug c));
      (reflect.mkStructField "filename" goconfig_path false [],
       reflect.VString (filename c));
      (reflect.mkStructField "listening" goconfig_path false [],
       reflect.VBool (listening c));
      (reflect.mkStructField "Mutex" "" true [], Mutex_value (Mutex c)) ].

(** [*Config] itself. *)
#[global] Instance Config_Configterface : Configterface Config := {|
  GetFilename := Config_GetFilename;
  IsListening := Config_IsListening;
  SetListening := Config_SetListening;
  Lock := Config_Lock;
  Unlock := Config_Unlock;
  reflect_value := Config_value
|}.

(** A struct of an adopter, with the fields of the scenario in the
    specification and [goconfig.Config] embedded after them:
    [Port int `env:"PORT" required:"true"`],
    [Timeout int `yaml:"timeout" env:"TIMEOUT"`],
    [Host *string `yaml:"host" required:"true"`].
    The methods of [Config] are promoted to it. *)
Record Service : Type := mkService {
  Port : Z;
  Timeout : Z;
  Host : option string;
  base : Config
}.

Definition Port_field : reflect.StructField :=
  reflect.mkStructField "Port" "" false [("env", "PORT"); ("required", "true")].

Definition Timeout_field : reflect.StructField :=
  reflect.mkStructField "Timeout" "" false [("yaml", "timeout"); ("env", "TIMEOUT")].

Definition Host_field : reflect.StructField :=
  reflect.mkStructField "Host" "" false [("yaml", "host"); ("required", "true")].

Definition Service_value (s : Service) : reflect.govalue :=
  reflect.VStruct
    [ (Port_field, reflect.VInt reflect.int (Port s));
      (Timeout_field, reflect.VInt reflect.int (Timeout s));
      (Host_field, reflect.VPtr (reflect.VString <$> Host s));
      (reflect.mkStructField "Config" "" true [], Config_value (base s)) ].

#[global] Instance Service_Configterface : Configterface Service := {|
  GetFilename s := Config_GetFilename (base s);
  IsListening s := Config_IsListening (base s);
  SetListening s l :=
    mkService (Port s) (Timeout s) (Host s) (Config_SetListening (base s) l);
  Lock s := b ← Config_Lock (base s); Some (mkService (Port s) (Timeout s) (Host s) b);
  Unlock s := b ← Config_Unlock (base s); Some (mkService (Port s) (Timeout s) (Host s) b);
  reflect_value := Service_value
|}.

(** A hand-written implementation on a named string type
    ([type Path string], methods on [*Path]); the bookkeeping that the
    methods need lives beside the string. *)
Record Path : Type := mkPath {
  path_text : string;
  path_listening : bool;
  path_guard : sync.Mutex
}.

#[global] Instance Path_Configterface : Configterface Path := {|
  GetFilename p := path_text p;
  IsListening p := path_listening p;
  SetListening p l := mkPath (path_text p) l (path_guard p);
  Lock p := m ← sync.Lock (path_guard p); Some (mkPath (path_text p) (path_listening p) m);
  Unlock p := m ← sync.Unlock (path_guard p); Some (mkPath (path_text p) (path_listening p) m);
  reflect_value p := reflect.VString (path_text p)
|}.

(** A struct of an adopter with a required field that is not exported:
    [secret string `required:"true"`], then the embedded [goconfig.Config]. *)
Record Vault : Type := mkVault {
  secret : string;
  vault_base : Config
}.

Definition secret_field : reflect.StructField :=
  reflect.mkStructField "secret" "main" false [("required", "true")].

Definition Vault_value (v : Vault) : reflect.govalue :=
  reflect.VStruct
    [ (secret_field, reflect.VString (secret v));
      (reflect.mkStructField "Config" "" true [], Config_value (vault_base v)) ].

#[global] Instance Vault_Configterface : Configterface Vault := {|
  GetFilename v := Config_GetFilename (vault_base v);
  IsListening v := Config_IsListening (vault_base v);
  SetListening v l := mkVault (secret v) (Config_SetListening (vault_base v) l);
  Lock v := b ← Config_Lock (vault_base v); Some (mkVault (secret v) b);
  Unlock v := b ← Config_Unlock (vault_base v); Some (mkVault (secret v) b);
  reflect_value := Vault_value
|}.

(** ** Vocabulary of the specification *)

(** The field is marked [required:"true"]. *)
Definition required (sf : reflect.StructField) : bool :=
  bool_decide (reflect.Get (reflect.Tag sf) "required" = "true").

(** The zero test reaches a verdict on the field (it does not stop on a
    value that reflection refuses to hand out). *)
Definition inspectable (f : reflect.flag)
    (fld : reflect.StructField * reflect.govalue) : bool :=
  match isZero (reflect.mkValue (reflect.Field_flag f fld.1) fld.2) with
  | Ret _ => true
  | Panic _ => false
  end.

(** The field holds its type's unset value. *)
Definition unset (f : reflect.flag)
    (fld : reflect.StructField * reflect.govalue) : bool :=
  match isZero (reflect.mkValue (reflect.Field_flag f fld.1) fld.2) with
  | Ret z => z
  | Panic _ => false
  end.

Definition all_required_inspectable (f : reflect.flag)
    (fields : list (reflect.StructField * reflect.govalue)) : bool :=
  forallb (λ fld, implb (required fld.1) (inspectable f fld)) fields.

(** The violation set, in declaration order. *)
Definition unset_required_names (f : reflect.flag)
    (fields : list (reflect.StructField * reflect.govalue)) : list string :=
  (reflect.Name ∘ fst) <$> filter (λ fld, required fld.1 && unset f fld) fields.

Definition verdict (names : list string) : option error :=
  match names with
  | [] => None
  | _ => Some (MissingRequiredStructFields names)
  end.

(** The flags of a struct reached through a pointer handed to
    [reflect.ValueOf]: addressable, not read-only. *)
Definition through_pointer : reflect.flag := reflect.mkFlag true reflect.RW.

(** [n] pointers in front of [d]. *)
Fixpoint pointers_to (n : nat) (d : reflect.govalue) : reflect.govalue :=
  match n with
  | O => d
  | S n' => reflect.VPtr (Some (pointers_to n' d))
  end.

(** The value of the first field of that name, when [d] is a struct. *)
Definition field_of (d : reflect.govalue) (name : string) : option reflect.govalue :=
  match d with
  | reflect.VStruct fields =>
      (λ found, found.2.2) <$> list_find (λ fld, reflect.Name fld.1 = name) fields
  | _ => None
  end.

(** The debug levels as the specification ranks them. *)
Definition known_levels : list string := ["error"; "warning"; "info"; "verbose"].

Definition rank (level : string) : Z :=
  if decide (level = "error") then 0
  else if decide (level = "warning") then 1
  else if decide (level = "info") then 2
  else if decide (level = "verbose") then 3
  else 0.

(** Is the guard held after these events, when it was [held] before? *)
Fixpoint held_after (tr : list event) (held : bool) : bool :=
  match tr with
  | [] => held
  | Lock_ev :: rest => held_after rest true
  | Unlock_ev :: rest => held_after rest false
  | _ :: rest => held_after rest held
  end.

(** Every event of the run with the state of the guard at the moment it
    happens. *)
Fixpoint with_guard (held : bool) (tr : list event) : list (event * bool) :=
  match tr with
  | [] => []
  | e :: rest => (e, held) :: with_guard (held_after [e] held) rest
  end.

(** All events of the run that satisfy [P] happen with the guard held. *)
Definition under_guard (P : event → bool) (tr : list event) : bool :=
  forallb (λ eh : event * bool, implb (P eh.1) eh.2) (with_guard false tr).

(** All events of the run that satisfy [P] happen with the guard free. *)
Definition outside_guard (P : event → bool) (tr : list event) : bool :=
  forallb (λ eh : event * bool, implb (P eh.1) (negb eh.2)) (with_guard false tr).

(** The steps of a load cycle that touch the object. *)
Definition is_merge_step (e : event) : bool :=
  match e with
  | Unmarshal_ev | Parse_ev | Validate_ev => true
  | _ => false
  end.

Definition is_read (e : event) : bool :=
  match e with ReadFile_ev _ => true | _ => false end.

(** The call came back to its caller, with a result or with a panic. *)
Definition came_back {A} (o : outcome A) : bool :=
  match o with
  | Done _ | Panicked _ => true
  | Blocked | Fatal _ => false
  end.

(** Accessors and guard of a well-behaved implementation do not interfere
    with each other. *)
Class GuardedAccessors (T : Type) `{Configterface T} : Prop := {
  IsListening_SetListening : ∀ t l, IsListening (SetListening t l) = l;
  GetFilename_SetListening : ∀ t l, GetFilename (SetListening t l) = GetFilename t;
  Lock_SetListening : ∀ t l,
    Lock (SetListening t l) = (λ t', SetListening t' l) <$> Lock t;
  Unlock_SetListening : ∀ t l,
    Unlock (SetListening t l) = (λ t', SetListening t' l) <$> Unlock t;
  IsListening_Lock : ∀ t t', Lock t = Some t' → IsListening t' = IsListening t;
  IsListening_Unlock : ∀ t t', Unlock t = Some t' → IsListening t' = IsListening t;
  GetFilename_Lock : ∀ t t', Lock t = Some t' → GetFilename t' = GetFilename t;
  GetFilename_Unlock : ∀ t t', Unlock t = Some t' → GetFilename t' = GetFilename t;
  Unlock_Lock : ∀ t t', Lock t = Some t' → Unlock t' = Some t
}.

Section Collaborators.

Context {T : Type} `{Configterface T}.
Variable yaml_Unmarshal : list Byte.byte → T → T * option error.
Variable env_Parse : T → T * option error.

(** The named field of the object, as reflection shows it. *)
Definition field (name : string) (t : T) : option reflect.govalue :=
  field_of (reflect_value t) name.

(** The file step of a load cycle: the decode when the read gave bytes,
    nothing otherwise. *)
Definition file_pass (rd : list Byte.byte + error) (t : T) : T * option error :=
  match rd with
  | inl data => yaml_Unmarshal data t
  | inr _ => (t, None)
  end.

(** A part of the object is what an observation [obs] reads: a
    top-level field is read by [field name], a field of the embedded
    [Config] by the corresponding projection.

    The file with these bytes gives that part the value [v]. *)
Definition file_provides {A} (data : list Byte.byte) (obs : T → A) (v : A) : Prop :=
  ∀ s s', yaml_Unmarshal data s = (s', None) → obs s' = v.

(** The environment gives that part the value [v]. *)
Definition env_provides {A} (obs : T → A) (v : A) : Prop :=
  ∀ s s', env_Parse s = (s', None) → obs s' = v.

(** The environment has nothing for that part. *)
Definition env_silent_on {A} (obs : T → A) : Prop :=
  ∀ s s' err, env_Parse s = (s', err) → obs s' = obs s.

(** Neither decoder writes what [obs] reads. *)
Definition decoders_keep {A} (obs : T → A) : Prop :=
  (∀ data s s' err, yaml_Unmarshal data s = (s', err) → obs s' = obs s)
  ∧ (∀ s s' err, env_Parse s = (s', err) → obs s' = obs s).

(** Taking and releasing the guard does not change what [obs] reads. *)
Definition guard_keeps {A} (obs : T → A) : Prop :=
  (∀ s s', Lock s = Some s' → obs s' = obs s)
  ∧ (∀ s s', Unlock s = Some s' → obs s' = obs s).

(** The decoders leave the guard alone: a guard that can be released
    before a decode can be released after it. *)
Definition decoders_keep_guard : Prop :=
  (∀ data s s' err, yaml_Unmarshal data s = (s', err) →
     is_Some (Unlock s) → is_Some (Unlock s'))
  ∧ (∀ s s' err, env_Parse s = (s', err) →
     is_Some (Unlock s) → is_Some (Unlock s')).

(** What the file step adds to the run. *)
Definition file_events (rd : list Byte.byte + error) : list event :=
  match rd with
  | inl _ => [Unmarshal_ev]
  | inr _ => []
  end.

(** The validator's answer on the object behind the pointer, as the
    outcome of the call that asked for it. *)
Definition validation (t : T) : outcome (option error) :=
  match findMissingRequiredFields (Some (reflect.VPtr (Some (reflect_value t)))) with
  | Ret err => Done err
  | Panic msg => Panicked msg
  end.

(** [n] calls of [ListenForSignals] in a row on the same object: the
    object at the end and everything that happened. *)
Fixpoint arm_repeatedly (n : nat) (t : T) : T * list event :=
  match n with
  | O => (t, [])
  | S n' =>
      match ListenForSignals (ByPointer t) with
      | (_, t', tr) =>
          match arm_repeatedly n' t' with
          | (t'', tr') => (t'', tr ++ tr')
          end
      end
  end.

End Collaborators.

Definition count_event (e : event) (tr : list event) : nat :=
  length (filter (λ e', e' = e) tr).

(** ** Sample collaborators and objects *)

(** A file that says [port: 1] and [timeout: 5]. *)
Definition sample_yaml (data : list Byte.byte) (s : Service) : Service * option error :=
  (mkService 1 5 (Host s) (base s), None).

(** An environment with [PORT=8080]. *)
Definition sample_env (s : Service) : Service * option error :=
  (mkService 8080 (Timeout s) (Host s) (base s), None).

(** An environment without any of the variables, and a file without any
    of the keys. *)
Definition empty_env {T} (s : T) : T * option error := (s, None).

Definition empty_yaml {T} (data : list Byte.byte) (s : T) : T * option error := (s, None).

Definition disk_with_file (name : string) : list Byte.byte + error := inl [].

Definition disk_without_file (name : string) : list Byte.byte + error :=
  inr (os_error ("open " +:+ name +:+ ": no such file or directory")).

Definition fresh_Config : Config :=
  mkConfig "" "whatever.yaml" false (sync.mkMutex false).

Definition sample_Service : Service := mkService 0 30 None fresh_Config.

(** The same object while its guard is held. *)
Definition held_Service : Service :=
  mkService 0 30 None (mkConfig "" "whatever.yaml" false (sync.mkMutex true)).

Definition sample_Vault : Vault := mkVault "" fresh_Config.

Definition sample_Path : Path := mkPath "whatever.yaml" false (sync.mkMutex false).

(** ** Further vocabulary *)

(** The verdict of the zero test on a value, "set" when it reaches none. *)
Definition unset_value (f : reflect.flag) (d : reflect.govalue) : bool :=
  match isZero_at f d with
  | Ret z => z
  | Panic _ => false
  end.

(** The kinds that [isZero] compares with the zero value of their type. *)
Definition compared_directly (k : reflect.Kind) : bool :=
  match k with
  | reflect.Func | reflect.Map | reflect.Slice | reflect.Array
  | reflect.Struct | reflect.Ptr | reflect.Invalid => false
  | _ => true
  end.

(** The same value with the tag of every struct field inside it, at any
    depth, replaced by what [g] says. *)
Fixpoint retag (g : reflect.StructField → reflect.StructTag) (d : reflect.govalue)
    {struct d} : reflect.govalue :=
  match d with
  | reflect.VInterface (Some e) => reflect.VInterface (Some (retag g e))
  | reflect.VMap (Some m) =>
      reflect.VMap (Some (map (λ kv, match kv with (k, v) => (retag g k, retag g v) end) m))
  | reflect.VSlice (Some s) => reflect.VSlice (Some (map (retag g) s))
  | reflect.VArray elems => reflect.VArray (map (retag g) elems)
  | reflect.VStruct fields =>
      reflect.VStruct
        (map (λ fld, match fld with
                     | (sf, v) =>
                         (reflect.mkStructField (reflect.Name sf) (reflect.PkgPath sf)
                            (reflect.Anonymous sf) (g sf),
                          retag g v)
                     end) fields)
  | reflect.VPtr (Some p) => reflect.VPtr (Some (retag g p))
  | _ => d
  end.

(** The fields of a struct with the tags inside their values replaced,
    their own tags kept. *)
Definition retag_inside (g : reflect.StructField → reflect.StructTag)
    (fields : list (reflect.StructField * reflect.govalue))
    : list (reflect.StructField * reflect.govalue) :=
  map (λ fld, (fld.1, retag g fld.2)) fields.

(** No bracket in the text. *)
Definition bracket_free (s : string) : bool :=
  forallb (λ a, negb (bool_decide (a ∈ String.list_ascii_of_string "[]")))
    (String.list_ascii_of_string s).

(** A struct with a nested section: [Section struct { Name string
    `required:"true"` }], not itself required. *)
Definition nested_required : reflect.govalue :=
  reflect.VStruct
    [ (reflect.mkStructField "Section" "" false [("yaml", "section")],
       reflect.VStruct
         [ (reflect.mkStructField "Name" "" false [("required", "true")],
            reflect.VString "") ]) ].

(** A file that cannot be decoded, and an environment that cannot. *)
Definition broken_yaml (data : list Byte.byte) (s : Service) : Service * option error :=
  (mkService 1 (Timeout s) (Host s) (base s), Some (yaml_error "yaml: line 2: mapping values are not allowed in this context")).

Definition broken_env (s : Service) : Service * option error :=
  (s, Some (env_error "strconv.ParseInt: parsing PORT: invalid syntax")).

(** The armed sample object. *)
Definition armed_Service : Service :=
  mkService 0 30 None (mkConfig "" "whatever.yaml" true (sync.mkMutex false)).

(** ** Zero values, as the language has them *)

(** Does the value equal the zero value of its type?  Written from the
    language's definition of zero values, with its [==] on the scalar
    kinds: [false], [0] (either signed zero for floats), the empty string,
    [nil] for channels, functions, interfaces, maps, pointers and slices;
    an array is zero when all its elements are, a struct when all its
    fields are, exported or not. *)
Fixpoint zero_value (d : reflect.govalue) {struct d} : bool :=
  match d with
  | reflect.VFunc fn => match fn with None => true | Some _ => false end
  | reflect.VMap m => match m with None => true | Some _ => false end
  | reflect.VSlice s => match s with None => true | Some _ => false end
  | reflect.VPtr p => match p with None => true | Some _ => false end
  | reflect.VArray elems => forallb zero_value elems
  | reflect.VStruct fields =>
      forallb (λ fld, match fld with (_, v) => zero_value v end) fields
  | _ => reflect.equals_Zero d
  end.

(** Every struct that is part of the value's own storage (reached through
    array elements and struct fields, not through a reference) has
    exported fields only. *)
Fixpoint exported_throughout (d : reflect.govalue) {struct d} : bool :=
  match d with
  | reflect.VArray elems => forallb exported_throughout elems
  | reflect.VStruct fields =>
      forallb (λ fld, match fld with
                      | (sf, v) => reflect.IsExported sf && exported_throughout v
                      end) fields
  | _ => true
  end.

(** The required fields of the struct are exported, and so is every
    field inside them. *)
Definition required_fields_exported
    (fields : list (reflect.StructField * reflect.govalue)) : bool :=
  forallb (λ fld, implb (required fld.1)
                    (reflect.IsExported fld.1 && exported_throughout fld.2)) fields.

(** The names of the required fields that hold the zero value of their
    type, in declaration order. *)
Definition zero_required_names
    (fields : list (reflect.StructField * reflect.govalue)) : list string :=
  (reflect.Name ∘ fst) <$> filter (λ fld, required fld.1 && zero_value fld.2) fields.

(** ** An environment decoder that insists on a struct *)

(** [env.Parse] of caarlos0/env starts by looking at its target: behind
    the pointer there has to be a struct, or it writes nothing and
    answers with its error [ErrNotAStructPtr]. *)
Definition struct_only {T} `{Configterface T} (parse : T → T * option error)
    (s : T) : T * option error :=
  if decide (reflect.Kind_of (reflect_value s) = reflect.Struct)
  then parse s
  else (s, Some (env_error "Expected a pointer to a Struct")).

(** The environment decoder reports an error for every target that is
    not a struct. *)
Definition env_refuses_other_than_structs {T} `{Configterface T}
    (env_Parse : T → T * option error) : Prop :=
  ∀ s, reflect.Kind_of (reflect_value s) ≠ reflect.Struct → is_Some (env_Parse s).2.

(** * Properties *)

(** ** The zero test *)

Ltac kind_cases H :=
  exfalso; apply list_elem_of_In in H; simpl in H; intuition discriminate.

Lemma isZero_reference (f : reflect.flag) (d : reflect.govalue) :
  reflect.Kind_of d ∈ [reflect.Ptr; reflect.Map; reflect.Slice; reflect.Func] →
  isZero (reflect.mkValue f d) = Ret (reflect.IsNil d).
Proof.
  intros Hk.
  destruct d as [b|t n|t bits|t re im|s|ch|fn|addr|elem|m|s|elems|fields|p];
    try reflexivity; try (destruct t); kind_cases Hk.
Qed.

Lemma IsNil_reference (d : reflect.govalue) :
  reflect.Kind_of d ∈ [reflect.Ptr; reflect.Map; reflect.Slice; reflect.Func] →
  reflect.IsNil d = true ↔
  d ∈ [reflect.VPtr None; reflect.VMap None; reflect.VSlice None; reflect.VFunc None].
Proof.
  intros Hk.
  destruct d as [b|t n|t bits|t re im|s|ch|[fn|]|addr|elem|[m|]|[s|]|elems|fields|[p|]];
    try (destruct t); try (kind_cases Hk); simpl;
    (split; intros Hn; [try discriminate Hn|try done; try (kind_cases Hn)]);
    apply list_elem_of_In; simpl; tauto.
Qed.

Lemma CanSet_Index (f : reflect.flag) :
  reflect.CanSet_flag f = true → reflect.CanSet_flag (reflect.Index_flag f) = true.
Proof. by destruct f as [[|] [| |]]. Qed.

(** On a value that can be set the zero test always reaches a verdict:
    inside such a value it only descends into what can be set. *)
Lemma isZero_at_settable :
  ∀ (d : reflect.govalue) (f : reflect.flag),
    reflect.CanSet_flag f = true → ∃ z, isZero_at f d = Ret z.
Proof.
  fix IH 1. intros d f Hf.
  assert (reflect.is_ro f = false) as Hro by (by destruct f as [[|] [| |]]).
  destruct d as [b|t n|t bits|t re im|s|ch|fn|addr|elem|m|s|elems|fields|p];
    try (simpl; unfold reflect.Interface_equals_Zero; simpl; rewrite Hro; by eexists);
    try (simpl; by eexists).
  - simpl. generalize true. revert elems. fix IHl 1. intros [|e elems] z.
    + by eexists.
    + destruct z; simpl.
      * destruct (IH e _ (CanSet_Index f Hf)) as [z' ->]. simpl. apply IHl.
      * apply IHl.
  - simpl. generalize true. revert fields. fix IHl 1. intros [|[sf e] fields] z.
    + by eexists.
    + destruct (reflect.CanSet_flag (reflect.Field_flag f sf)) eqn:Hc; [|apply IHl].
      destruct z; simpl.
      * destruct (IH e _ Hc) as [z' ->]. simpl. apply IHl.
      * apply IHl.
Qed.

(** An exported field of a struct reached through the pointer given to
    [Load] can always be inspected. *)
Lemma exported_field_inspectable (sf : reflect.StructField) (d : reflect.govalue) :
  reflect.IsExported sf = true → inspectable through_pointer (sf, d) = true.
Proof.
  intros He. unfold inspectable. simpl.
  destruct (isZero_at_settable d (reflect.Field_flag through_pointer sf)) as [z Hz].
  - unfold reflect.Field_flag. simpl. by rewrite He.
  - unfold isZero. simpl. by rewrite Hz.
Qed.

Lemma exported_required_fields_inspectable
    (fields : list (reflect.StructField * reflect.govalue)) :
  forallb (λ fld : reflect.StructField * reflect.govalue,
             implb (required fld.1) (reflect.IsExported fld.1)) fields = true →
  all_required_inspectable through_pointer fields = true.
Proof.
  unfold all_required_inspectable. induction fields as [|[sf d] fields IH]; [done|].
  simpl. intros [Hsf Hrest]%andb_prop. rewrite (IH Hrest), andb_true_r.
  destruct (required sf); [|done]. simpl in *.
  by apply exported_field_inspectable.
Qed.

(** A field whose zero test says "set" adds nothing to the slice of
    missing names, wherever it stands in the struct. *)
Lemma collect_missing_skip (f : reflect.flag) sf d pre post missing :
  isZero (reflect.mkValue (reflect.Field_flag f sf) d) = Ret false →
  collect_missing f (pre ++ (sf, d) :: post) missing
  = collect_missing f (pre ++ post) missing.
Proof.
  intros Hset. revert missing.
  induction pre as [|[sf' d'] pre IH]; intros missing; simpl.
  - rewrite Hset. simpl. by destruct (bool_decide _).
  - destruct (bool_decide _); [|apply IH].
    destruct (isZero (reflect.mkValue (reflect.Field_flag f sf') d')) as [z|msg];
      simpl; [apply IH|done].
Qed.

Lemma unset_required_names_cons (f : reflect.flag) fld fields :
  unset_required_names f (fld :: fields)
  = if required fld.1 && unset f fld
    then reflect.Name fld.1 :: unset_required_names f fields
    else unset_required_names f fields.
Proof.
  unfold unset_required_names. rewrite filter_cons.
  destruct (decide _) as [Hd|Hd]; simpl in Hd;
    destruct (required fld.1 && unset f fld); done || by destruct Hd.
Qed.

(** The loop of the validator computes the violation set of the
    specification, appended to what it started with. *)
Lemma collect_missing_spec (f : reflect.flag) fields missing :
  Forall (λ fld, required fld.1 → inspectable f fld) fields →
  collect_missing f fields missing = Ret (missing ++ unset_required_names f fields).
Proof.
  intros Hins. revert missing.
  induction Hins as [|[sf d] fields Hfld _ IH]; intros missing.
  - simpl. by rewrite app_nil_r.
  - rewrite unset_required_names_cons. simpl.
    unfold required, inspectable, unset in *. simpl in *.
    destruct (bool_decide (reflect.Get (reflect.Tag sf) "required" = "true")) eqn:Hreq;
      simpl; [|apply IH].
    destruct (isZero _) as [z|msg] eqn:Hz; [|by destruct (Hfld I)].
    simpl. rewrite IH. destruct z; [|done]. by rewrite <- app_assoc.
Qed.

Lemma verdict_None (names : list string) : verdict names = None ↔ names = [].
Proof. by destruct names. Qed.

Lemma findMissing_at_struct (f : reflect.flag) fields :
  Forall (λ fld, required fld.1 → inspectable f fld) fields →
  findMissing_at f (reflect.VStruct fields)
  = Ret (verdict (unset_required_names f fields)).
Proof.
  intros Hins. simpl. rewrite (collect_missing_spec _ _ _ Hins). simpl.
  by destruct (unset_required_names f fields).
Qed.

Lemma findMissingRequiredFields_pointer (d : reflect.govalue) :
  findMissingRequiredFields (Some (reflect.VPtr (Some d)))
  = findMissing_at through_pointer d.
Proof. reflexivity. Qed.

(** C4.  For a field of pointer, map, slice or function kind the zero
    test answers "unset" exactly when the reference is nil, whatever it
    refers to when it is not: a pointer to a zero payload and an allocated
    empty map or slice are set.  A required field holding such a present
    reference is never among the missing ones: the validator answers as if
    the field were not there. *)
Theorem reference_field_unset_iff_nil (f : reflect.flag) (d : reflect.govalue) :
  reflect.Kind_of d ∈ [reflect.Ptr; reflect.Map; reflect.Slice; reflect.Func] →
  isZero (reflect.mkValue f d) = Ret (reflect.IsNil d)
  ∧ (reflect.IsNil d = true ↔
     d ∈ [reflect.VPtr None; reflect.VMap None; reflect.VSlice None; reflect.VFunc None])
  ∧ (reflect.IsNil d = false →
     ∀ sf pre post,
       findMissingRequiredFields
         (Some (reflect.VPtr (Some (reflect.VStruct (pre ++ (sf, d) :: post)))))
       = findMissingRequiredFields
         (Some (reflect.VPtr (Some (reflect.VStruct (pre ++ post)))))).
Proof.
  intros Hk. split; [by apply isZero_reference|].
  split; [by apply IsNil_reference|].
  intros Hnil sf pre post. rewrite !findMissingRequiredFields_pointer. simpl.
  rewrite (collect_missing_skip through_pointer sf d pre post []); [done|].
  rewrite isZero_reference by done. by rewrite Hnil.
Qed.

Lemma all_required_inspectable_Forall (f : reflect.flag) fields :
  all_required_inspectable f fields = true →
  Forall (λ fld, required fld.1 → inspectable f fld) fields.
Proof.
  unfold all_required_inspectable. intros Hall.
  apply Forall_forall. intros fld Hin.
  apply list_elem_of_In in Hin.
  pose proof (proj1 (forallb_forall _ _) Hall fld Hin) as Himp. simpl in Himp.
  destruct (required fld.1), (inspectable f fld); done.
Qed.

Lemma unset_required_names_spec (f : reflect.flag) fields (n : string) :
  n ∈ unset_required_names f fields ↔
  ∃ fld, fld ∈ fields ∧ reflect.Name fld.1 = n
         ∧ required fld.1 = true ∧ unset f fld = true.
Proof.
  unfold unset_required_names. rewrite list_elem_of_fmap. split.
  - intros (fld & -> & Hin). apply list_elem_of_filter in Hin as [HP Hin].
    exists fld. apply andb_prop_elim in HP as [Hr Hu].
    repeat split; try done; by apply Is_true_eq_true.
  - intros (fld & Hin & <- & Hr & Hu). exists fld. split; [done|].
    apply list_elem_of_filter. split; [|done]. by rewrite Hr, Hu.
Qed.

Lemma unset_required_names_order (f : reflect.flag) fields :
  unset_required_names f fields `sublist_of` (reflect.Name ∘ fst) <$> fields.
Proof. unfold unset_required_names. apply fmap_sublist, sublist_filter. Qed.

(** ** The zero test against the zero values of the language *)

Lemma CanSet_Field_exported (f : reflect.flag) (sf : reflect.StructField) :
  reflect.CanSet_flag f = true → reflect.IsExported sf = true →
  reflect.CanSet_flag (reflect.Field_flag f sf) = true.
Proof. intros Hf Hx. unfold reflect.Field_flag. rewrite Hx. by destruct f as [[|] [| |]]. Qed.

(** On a value that can be set and whose structs have exported fields
    only, the zero test answers whether the value is the zero value of its
    type. *)
Lemma isZero_at_zero_value :
  ∀ (d : reflect.govalue) (f : reflect.flag),
    reflect.CanSet_flag f = true → exported_throughout d = true →
    isZero_at f d = Ret (zero_value d).
Proof.
  fix IH 1. intros d f Hf Hd.
  assert (reflect.is_ro f = false) as Hro by (by destruct f as [[|] [| |]]).
  destruct d as [b|t n|t bits|t re im|s|ch|fn|addr|elem|m|s|elems|fields|p];
    try (simpl; unfold reflect.Interface_equals_Zero; simpl; by rewrite Hro).
  - by destruct fn.
  - by destruct m.
  - by destruct s.
  - simpl in Hd. simpl.
    change (forallb zero_value elems) with (true && forallb zero_value elems).
    generalize true. revert elems Hd. fix IHl 1. intros [|e elems] Hd z.
    + simpl. by rewrite andb_true_r.
    + simpl in Hd. apply andb_prop in Hd as [He Hd].
      destruct z; simpl.
      * rewrite (IH e _ (CanSet_Index f Hf) He). simpl.
        by rewrite (IHl elems Hd (zero_value e)).
      * by rewrite (IHl elems Hd false).
  - simpl in Hd. simpl.
    match goal with
    | |- _ = Ret ?all => change all with (true && all)
    end.
    generalize true. revert fields Hd. fix IHl 1. intros [|[sf e] fields] Hd z.
    + simpl. by rewrite andb_true_r.
    + simpl in Hd. apply andb_prop in Hd as [Hsf Hd].
      apply andb_prop in Hsf as [Hx He].
      pose proof (CanSet_Field_exported f sf Hf Hx) as Hc.
      rewrite Hc. destruct z; simpl.
      * rewrite (IH e _ Hc He). simpl. by rewrite (IHl fields Hd (zero_value e)).
      * by rewrite (IHl fields Hd false).
  - by destruct p.
Qed.

Lemma required_fields_exported_inspectable
    (fields : list (reflect.StructField * reflect.govalue)) :
  required_fields_exported fields = true →
  all_required_inspectable through_pointer fields = true.
Proof.
  intros Hall. apply exported_required_fields_inspectable.
  unfold required_fields_exported in Hall.
  apply forallb_forall. intros fld Hin.
  pose proof (proj1 (forallb_forall _ _) Hall fld Hin) as Hfld. simpl in Hfld.
  destruct (required fld.1); [|done]. simpl in *.
  by apply andb_prop in Hfld as [-> _].
Qed.

Lemma zero_required_names_cons fld fields :
  zero_required_names (fld :: fields)
  = if required fld.1 && zero_value fld.2
    then reflect.Name fld.1 :: zero_required_names fields
    else zero_required_names fields.
Proof.
  unfold zero_required_names. rewrite filter_cons.
  destruct (decide _) as [Hd|Hd]; simpl in Hd;
    destruct (required fld.1 && zero_value fld.2); done || by destruct Hd.
Qed.

(** On such a struct the violation set that the validator computes is the
    set of required fields holding their zero value. *)
Lemma unset_required_names_zero
    (fields : list (reflect.StructField * reflect.govalue)) :
  required_fields_exported fields = true →
  unset_required_names through_pointer fields = zero_required_names fields.
Proof.
  unfold required_fields_exported.
  induction fields as [|[sf d] fields IH]; [done|].
  simpl. intros [Hfld Hrest]%andb_prop.
  rewrite unset_required_names_cons, zero_required_names_cons, (IH Hrest). simpl.
  destruct (required sf); [|done]. simpl in *.
  apply andb_prop in Hfld as [Hx Hd].
  unfold unset, isZero. simpl.
  rewrite (isZero_at_zero_value d (reflect.Field_flag through_pointer sf)); [done| |done].
  by apply CanSet_Field_exported.
Qed.

Lemma zero_required_names_spec
    (fields : list (reflect.StructField * reflect.govalue)) (n : string) :
  n ∈ zero_required_names fields ↔
  ∃ fld, fld ∈ fields ∧ reflect.Name fld.1 = n
         ∧ required fld.1 = true ∧ zero_value fld.2 = true.
Proof.
  unfold zero_required_names. rewrite list_elem_of_fmap. split.
  - intros (fld & -> & Hin). apply list_elem_of_filter in Hin as [HP Hin].
    exists fld. apply andb_prop_elim in HP as [Hr Hu].
    repeat split; try done; by apply Is_true_eq_true.
  - intros (fld & Hin & <- & Hr & Hu). exists fld. split; [done|].
    apply list_elem_of_filter. split; [|done]. by rewrite Hr, Hu.
Qed.

Lemma zero_required_names_order
    (fields : list (reflect.StructField * reflect.govalue)) :
  zero_required_names fields `sublist_of` (reflect.Name ∘ fst) <$> fields.
Proof. unfold zero_required_names. apply fmap_sublist, sublist_filter. Qed.

(** ** One load cycle *)

Ltac unfold_run :=
  unfold Load, Load_body, ListenForSignals, ListenForSignals_body,
    mbind, M_bind, mret, M_ret, defer, panic, emit,
    call_ReadFile, call_Lock, call_Unlock, call_Unmarshal, call_Parse,
    call_findMissingRequiredFields, call_IsListening, call_SetListening; simpl.

Section LoadFacts.
Context {T : Type} `{Configterface T}.
Variable ioutil_ReadFile : string → list Byte.byte + error.
Variable yaml_Unmarshal : list Byte.byte → T → T * option error.
Variable env_Parse : T → T * option error.

Local Abbreviation Load' := (Load ioutil_ReadFile yaml_Unmarshal env_Parse).
Local Abbreviation file_pass' := (file_pass yaml_Unmarshal).

Lemma Load_blocked (t : T) :
  Lock t = None →
  Load' (ByPointer t) = (Blocked, t, [ReadFile_ev (GetFilename t)]).
Proof. intros HL. unfold_run. by rewrite HL. Qed.

Lemma Load_validated (t t1 t1' t2 t3 : T) :
  Lock t = Some t1 →
  file_pass' (ioutil_ReadFile (GetFilename t)) t1 = (t1', None) →
  env_Parse t1' = (t2, None) →
  Unlock t2 = Some t3 →
  Load' (ByPointer t)
  = (validation t2, t3,
     [ReadFile_ev (GetFilename t); Lock_ev]
     ++ file_events (ioutil_ReadFile (GetFilename t))
     ++ [Parse_ev; Validate_ev; Unlock_ev]).
Proof.
  intros HL Hf He HU. unfold_run. rewrite HL. simpl.
  unfold file_pass in Hf. unfold validation.
  destruct (ioutil_ReadFile (GetFilename t)) as [data|e]; simpl.
  - rewrite Hf. simpl. rewrite He. simpl.
    destruct (findMissing_at _ _) as [[e|]|msg]; simpl; rewrite HU; reflexivity.
  - inversion Hf; subst. rewrite He. simpl.
    destruct (findMissing_at _ _) as [[e'|]|msg]; simpl; rewrite HU; reflexivity.
Qed.

Lemma Load_env_error (t t1 t1' t2 t3 : T) (e : error) :
  Lock t = Some t1 →
  file_pass' (ioutil_ReadFile (GetFilename t)) t1 = (t1', None) →
  env_Parse t1' = (t2, Some e) →
  Unlock t2 = Some t3 →
  Load' (ByPointer t)
  = (Done (Some e), t3,
     [ReadFile_ev (GetFilename t); Lock_ev]
     ++ file_events (ioutil_ReadFile (GetFilename t))
     ++ [Parse_ev; Unlock_ev]).
Proof.
  intros HL Hf He HU. unfold_run. rewrite HL. simpl.
  unfold file_pass in Hf.
  destruct (ioutil_ReadFile (GetFilename t)) as [data|e0]; simpl.
  - rewrite Hf. simpl. rewrite He. simpl. by rewrite HU.
  - inversion Hf; subst. rewrite He. simpl. by rewrite HU.
Qed.

Lemma validation_struct (t : T) fields :
  reflect_value t = reflect.VStruct fields →
  all_required_inspectable through_pointer fields = true →
  validation t = Done (verdict (unset_required_names through_pointer fields)).
Proof.
  intros Hv Hins. unfold validation.
  change (findMissingRequiredFields (Some (reflect.VPtr (Some (reflect_value t)))))
    with (findMissing_at through_pointer (reflect_value t)).
  rewrite Hv, findMissing_at_struct; [done|].
  by apply all_required_inspectable_Forall.
Qed.

(** The validation step of [Load] on a struct whose required fields are
    exported and have exported fields only inside them: when both decode
    passes are through without error, [Load] returns
    [MissingRequiredStructFields] with exactly the names of the required
    fields that hold the zero value of their type, in declaration order,
    whenever there is such a field; and it returns no error exactly when
    there is none. *)
Theorem Load_names_the_unset_required_fields (t t1 t1' t2 t3 : T) fields :
  Lock t = Some t1 →
  file_pass' (ioutil_ReadFile (GetFilename t)) t1 = (t1', None) →
  env_Parse t1' = (t2, None) →
  Unlock t2 = Some t3 →
  reflect_value t2 = reflect.VStruct fields →
  required_fields_exported fields = true →
  let names := zero_required_names fields in
  let result := (Load' (ByPointer t)).1.1 in
  (names ≠ [] → result = Done (Some (MissingRequiredStructFields names)))
  ∧ (result = Done None ↔ names = [])
  ∧ (∀ n, n ∈ names ↔
       ∃ fld, fld ∈ fields ∧ reflect.Name fld.1 = n
              ∧ required fld.1 = true ∧ zero_value fld.2 = true)
  ∧ names `sublist_of` (reflect.Name ∘ fst) <$> fields.
Proof.
  intros HL Hf He HU Hv Hexp names result.
  assert (result = Done (verdict names)) as Hres.
  { unfold result, names.
    rewrite (Load_validated t t1 t1' t2 t3) by done. simpl.
    rewrite <- (unset_required_names_zero fields Hexp).
    apply validation_struct; [done|].
    by apply required_fields_exported_inspectable. }
  split; [|split; [|split]].
  - intros Hne. rewrite Hres. by destruct names.
  - rewrite Hres. split.
    + intros [= Hnone]. by apply verdict_None.
    + by intros ->.
  - apply zero_required_names_spec.
  - apply zero_required_names_order.
Qed.


(** C3.  When the read of the source fails, with whatever error, [Load]
    reports nothing about it: no file decode takes place, the environment
    decode runs on the object as it was, and the call answers what the
    rest of the cycle answers, the error of the environment decode or else
    the verdict of the validation that follows it. *)
Theorem Load_without_readable_file (t t1 t2 t3 : T) (e : error) (err : option error) :
  ioutil_ReadFile (GetFilename t) = inr e →
  Lock t = Some t1 →
  env_Parse t1 = (t2, err) →
  Unlock t2 = Some t3 →
  Load' (ByPointer t)
  = (match err with Some e' => Done (Some e') | None => validation t2 end,
     t3,
     [ReadFile_ev (GetFilename t); Lock_ev; Parse_ev]
     ++ (match err with Some _ => [] | None => [Validate_ev] end)
     ++ [Unlock_ev])
  ∧ (Unmarshal_ev ∉ (Load' (ByPointer t)).2)
  ∧ (Parse_ev ∈ (Load' (ByPointer t)).2).
Proof.
  intros Hrd HL He HU.
  assert (file_pass' (ioutil_ReadFile (GetFilename t)) t1 = (t1, None)) as Hf
    by (by rewrite Hrd).
  destruct err as [e'|].
  - rewrite (Load_env_error t t1 t1 t2 t3 e') by done. rewrite Hrd. simpl.
    split; [done|]. split.
    + intros Hin. apply list_elem_of_In in Hin. simpl in Hin. intuition discriminate.
    + apply list_elem_of_In. simpl. tauto.
  - rewrite (Load_validated t t1 t1 t2 t3) by done. rewrite Hrd. simpl.
    split; [done|]. split.
    + intros Hin. apply list_elem_of_In in Hin. simpl in Hin. intuition discriminate.
    + apply list_elem_of_In. simpl. tauto.
Qed.

(** C2.  When the file is read and both decodes succeed, the file decode
    runs first and the environment decode runs on its result.  Hence a
    field for which the environment has a value holds that value when
    [Load] returns, whatever the file said, and a field for which only the
    file has a value keeps the value from the file.  (The field is any
    part of the object that taking and releasing the guard leaves alone.) *)
Theorem environment_overrides_file (t t1 t1' t2 t3 : T) (data : list Byte.byte) :
  ioutil_ReadFile (GetFilename t) = inl data →
  Lock t = Some t1 →
  yaml_Unmarshal data t1 = (t1', None) →
  env_Parse t1' = (t2, None) →
  Unlock t2 = Some t3 →
  let run := Load' (ByPointer t) in
  run.2 = [ReadFile_ev (GetFilename t); Lock_ev; Unmarshal_ev; Parse_ev;
           Validate_ev; Unlock_ev]
  ∧ run.1.2 = t3
  ∧ (∀ A (obs : T → A) (v : A),
       env_provides env_Parse obs v → guard_keeps obs →
       obs run.1.2 = v)
  ∧ (∀ A (obs : T → A) (v : A),
       file_provides yaml_Unmarshal data obs v → env_silent_on env_Parse obs →
       guard_keeps obs →
       obs run.1.2 = v).
Proof.
  intros Hrd HL Hy He HU run.
  assert (run = (validation t2, t3,
                 [ReadFile_ev (GetFilename t); Lock_ev; Unmarshal_ev; Parse_ev;
                  Validate_ev; Unlock_ev])) as ->.
  { unfold run. rewrite (Load_validated t t1 t1' t2 t3); try done.
    - by rewrite Hrd.
    - by rewrite Hrd. }
  simpl. split; [done|]. split; [done|]. split.
  - intros A obs v Henv [_ Hg]. rewrite (Hg _ _ HU). by eapply Henv.
  - intros A obs v Hfile Hsilent [_ Hg]. rewrite (Hg _ _ HU).
    rewrite (Hsilent _ _ _ He). by eapply Hfile.
Qed.

(** The shape of every run of [Load] on a pointer whose guard is free:
    the read, the guard taken, merge steps, the guard released. *)
Lemma Load_trace_shape (t t1 : T) :
  Lock t = Some t1 →
  is_Some (Unlock t1) →
  decoders_keep_guard yaml_Unmarshal env_Parse →
  ∃ mid,
    (Load' (ByPointer t)).2
    = ReadFile_ev (GetFilename t) :: Lock_ev :: mid ++ [Unlock_ev]
    ∧ forallb is_merge_step mid = true
    ∧ came_back (Load' (ByPointer t)).1.1 = true.
Proof.
  intros HL HU1 [Hky Hke]. unfold_run. rewrite HL. simpl.
  destruct (ioutil_ReadFile (GetFilename t)) as [data|e]; simpl.
  - destruct (yaml_Unmarshal data t1) as [t1' [e1|]] eqn:Hy; simpl.
    + destruct (Hky _ _ _ _ Hy HU1) as [t3 ->]. by exists [Unmarshal_ev].
    + pose proof (Hky _ _ _ _ Hy HU1) as HU1'.
      destruct (env_Parse t1') as [t2 [e2|]] eqn:He; simpl.
      * destruct (Hke _ _ _ He HU1') as [t3 ->]. by exists [Unmarshal_ev; Parse_ev].
      * destruct (Hke _ _ _ He HU1') as [t3 HU2].
        destruct (findMissing_at _ _) as [[e3|]|msg]; simpl; rewrite HU2;
          by exists [Unmarshal_ev; Parse_ev; Validate_ev].
  - destruct (env_Parse t1) as [t2 [e2|]] eqn:He; simpl.
    + destruct (Hke _ _ _ He HU1) as [t3 ->]. by exists [Parse_ev].
    + destruct (Hke _ _ _ He HU1) as [t3 HU2].
      destruct (findMissing_at _ _) as [[e3|]|msg]; simpl; rewrite HU2;
        by exists [Parse_ev; Validate_ev].
Qed.

(** C5, as the code has it.  [Load] reads the source before it takes the
    guard: the read is the first event of the run and happens with the
    guard free.  From then on the guard is held: every decode and the
    validation happen under it, and on every way out of the cycle, with
    an error, without one or with a panic of the validator, the release of
    the guard is the last event. *)
Theorem Load_takes_guard_after_read (t t1 : T) :
  Lock t = Some t1 →
  is_Some (Unlock t1) →
  decoders_keep_guard yaml_Unmarshal env_Parse →
  let run := Load' (ByPointer t) in
  head run.2 = Some (ReadFile_ev (GetFilename t))
  ∧ outside_guard is_read run.2 = true
  ∧ under_guard is_merge_step run.2 = true
  ∧ last run.2 = Some Unlock_ev
  ∧ held_after run.2 false = false
  ∧ came_back run.1.1 = true.
Proof.
  intros HL HU Hk run.
  destruct (Load_trace_shape t t1 HL HU Hk) as (mid & Htr & Hmid & Hback).
  fold run in Htr, Hback. rewrite Htr. clear Htr.
  split; [done|].
  assert (with_guard true (mid ++ [Unlock_ev])
          = ((λ e, (e, true)) <$> mid) ++ [(Unlock_ev, true)]) as Hwg.
  { clear -Hmid. induction mid as [|e mid IH]; [done|].
    simpl in Hmid. apply andb_prop in Hmid as [He Hmid].
    destruct e; try discriminate He; simpl; by rewrite (IH Hmid). }
  assert (∀ held, held_after (mid ++ [Unlock_ev]) held = false) as Hha.
  { clear. induction mid as [|e mid IH]; intros held; [done|].
    destruct e; simpl; apply IH. }
  split; [|split; [|split; [|split]]].
  - unfold outside_guard. simpl. rewrite Hwg, forallb_app. simpl.
    rewrite andb_true_r. clear -Hmid.
    induction mid as [|e mid IH]; [done|].
    simpl in Hmid. apply andb_prop in Hmid as [He Hmid].
    rewrite fmap_cons. simpl. rewrite (IH Hmid). by destruct e.
  - unfold under_guard. simpl. rewrite Hwg, forallb_app. simpl.
    rewrite andb_true_r. clear.
    induction mid as [|e mid IH]; [done|].
    rewrite fmap_cons. simpl. rewrite IH. by destruct (is_merge_step e).
  - by rewrite !last_cons, last_snoc.
  - simpl. apply Hha.
  - done.
Qed.

Lemma findMissing_at_not_struct (f : reflect.flag) (d : reflect.govalue) :
  reflect.Kind_of d ∉ [reflect.Struct; reflect.Ptr] →
  findMissing_at f d = Ret (Some (errors_New "Not a struct!")).
Proof.
  intros Hk. destruct d; try reflexivity;
    exfalso; apply Hk; apply list_elem_of_In; simpl; tauto.
Qed.

(** [Load] on a pointer to something that is neither a struct nor a
    pointer, its guard free, with decoders that leave the guard alone: the
    call returns an error, the one of the first decode pass that reports
    one, and the validator's ["Not a struct!"] when neither does. *)
Lemma Load_not_a_struct (t t1 : T) :
  (∀ s, reflect.Kind_of (reflect_value s) ∉ [reflect.Struct; reflect.Ptr]) →
  Lock t = Some t1 →
  is_Some (Unlock t1) →
  decoders_keep_guard yaml_Unmarshal env_Parse →
  (Load' (ByPointer t)).1.1
  = Done (Some
      match (file_pass' (ioutil_ReadFile (GetFilename t)) t1).2 with
      | Some e => e
      | None =>
          match (env_Parse (file_pass' (ioutil_ReadFile (GetFilename t)) t1).1).2 with
          | Some e => e
          | None => errors_New "Not a struct!"
          end
      end).
Proof.
  intros Hkind HL HU1 [Hky Hke]. unfold file_pass. unfold_run. rewrite HL. simpl.
  destruct (ioutil_ReadFile (GetFilename t)) as [data|e0]; simpl.
  - destruct (yaml_Unmarshal data t1) as [t1' [e1|]] eqn:Hy; simpl.
    + by destruct (Hky _ _ _ _ Hy HU1) as [t3 ->].
    + pose proof (Hky _ _ _ _ Hy HU1) as HU1'.
      destruct (env_Parse t1') as [t2 [e2|]] eqn:He; simpl.
      * by destruct (Hke _ _ _ He HU1') as [t3 ->].
      * destruct (Hke _ _ _ He HU1') as [t3 HU2].
        rewrite (findMissing_at_not_struct _ _ (Hkind t2)). simpl. by rewrite HU2.
  - destruct (env_Parse t1) as [t2 [e2|]] eqn:He; simpl.
    + by destruct (Hke _ _ _ He HU1) as [t3 ->].
    + destruct (Hke _ _ _ He HU1) as [t3 HU2].
      rewrite (findMissing_at_not_struct _ _ (Hkind t2)). simpl. by rewrite HU2.
Qed.

(** With an environment decoder that reports an error for every target
    that is not a struct, [Load] on such a target never gets to the
    validator. *)
Lemma Load_refused_before_validation (t : T) :
  (∀ s, reflect.Kind_of (reflect_value s) ≠ reflect.Struct) →
  env_refuses_other_than_structs env_Parse →
  Validate_ev ∉ (Load' (ByPointer t)).2.
Proof.
  intros Hkind Hrefuse. unfold_run.
  destruct (Lock t) as [t1|]; simpl;
    [|intros Hin; apply list_elem_of_In in Hin; simpl in Hin; intuition discriminate].
  assert (∀ s, ∃ s' e, env_Parse s = (s', Some e)) as Herr.
  { intros s. destruct (Hrefuse s (Hkind s)) as [e He].
    destruct (env_Parse s) as [s' err]. simpl in He. subst err. by exists s', e. }
  destruct (ioutil_ReadFile (GetFilename t)) as [data|e0]; simpl.
  - destruct (yaml_Unmarshal data t1) as [t1' [e1|]]; simpl.
    + destruct (Unlock t1'); simpl; intros Hin;
        apply list_elem_of_In in Hin; simpl in Hin; intuition discriminate.
    + destruct (Herr t1') as (t2 & e2 & ->). simpl.
      destruct (Unlock t2); simpl; intros Hin;
        apply list_elem_of_In in Hin; simpl in Hin; intuition discriminate.
  - destruct (Herr t1) as (t2 & e2 & ->). simpl.
    destruct (Unlock t2); simpl; intros Hin;
      apply list_elem_of_In in Hin; simpl in Hin; intuition discriminate.
Qed.

(** C8, as the code has it.  An argument that is not a pointer makes
    [Load] and [ListenForSignals] panic before anything else happens.  A
    pointer to something that is not a struct makes neither panic:
    [ListenForSignals] does not look behind the pointer, and [Load] returns
    an ordinary error value to its caller, the guard released.  That error
    is the one of the first decode pass that reports one, and the
    validator's ["Not a struct!"] when neither does; with an environment
    decoder that refuses such a target, as the one in use does, the
    validator is not reached.  Only the goroutine started by
    [ListenForSignals] turns an error that [Load] returns into a panic. *)
Theorem misuse_by_value_panics_behind_pointer_is_returned :
  (∀ c : Boxed T,
     reflect.Kind_of (as_any c) ≠ reflect.Ptr →
     Load' c = (Panicked "Load only accepts pointers to structs", obj_of c, [])
     ∧ ListenForSignals c
       = (Panicked "ListenForSignals only accepts pointers to structs", obj_of c, []))
  ∧ (∀ t t1 : T,
       (∀ s, reflect.Kind_of (reflect_value s) ∉ [reflect.Struct; reflect.Ptr]) →
       Lock t = Some t1 →
       is_Some (Unlock t1) →
       decoders_keep_guard yaml_Unmarshal env_Parse →
       (Load' (ByPointer t)).1.1
       = Done (Some
           match (file_pass' (ioutil_ReadFile (GetFilename t)) t1).2 with
           | Some e => e
           | None =>
               match (env_Parse (file_pass' (ioutil_ReadFile (GetFilename t)) t1).1).2 with
               | Some e => e
               | None => errors_New "Not a struct!"
               end
           end)
       ∧ last (Load' (ByPointer t)).2 = Some Unlock_ev)
  ∧ (∀ t : T,
       (∀ s, reflect.Kind_of (reflect_value s) ≠ reflect.Struct) →
       env_refuses_other_than_structs env_Parse →
       Validate_ev ∉ (Load' (ByPointer t)).2)
  ∧ (∀ (t : T) (msg : string), (ListenForSignals (ByPointer t)).1.1 ≠ Panicked msg)
  ∧ (∀ (c : Boxed T) (t t' : T) (e : error) (tr : list event),
       Load_body ioutil_ReadFile yaml_Unmarshal env_Parse c t = (Done (Some e), t', tr) →
       (on_SIGHUP ioutil_ReadFile yaml_Unmarshal env_Parse c t).1
       = (Panicked ("config file error: " +:+ Error e), t')).
Proof.
  split; [|split; [|split; [|split]]].
  - intros c Hk. unfold Load, Load_body, ListenForSignals, ListenForSignals_body.
    rewrite !bool_decide_eq_true_2 by done. done.
  - intros t t1 Hkind HL HU1 Hkeep. split; [by apply Load_not_a_struct|].
    destruct (Load_trace_shape t t1 HL HU1 Hkeep) as (mid & -> & _ & _).
    by rewrite !last_cons, last_snoc.
  - intros t Hkind Hrefuse. by apply Load_refused_before_validation.
  - intros t msg. unfold_run.
    destruct (Lock t) as [t1|]; simpl; [|discriminate].
    destruct (IsListening t1); simpl.
    + destruct (Unlock t1); simpl; discriminate.
    + destruct (Unlock (SetListening t1 true)); simpl; discriminate.
  - intros c t t' e tr Hload. unfold on_SIGHUP, mbind, M_bind. by rewrite Hload.
Qed.

(** Whatever [Load] is given and however it ends, it changes nothing that
    neither the guard nor a decoder changes. *)
Lemma Load_frame {A} (obs : T → A) (c : Boxed T) :
  guard_keeps obs →
  decoders_keep yaml_Unmarshal env_Parse obs →
  obs (Load' c).1.2 = obs (obj_of c).
Proof.
  intros [HkL HkU] [Hky Hke]. unfold_run.
  destruct (bool_decide _); [done|].
  set (t := obj_of c).
  destruct (Lock t) as [t1|] eqn:HL; [|done]. simpl.
  pose proof (HkL _ _ HL) as E1.
  destruct (ioutil_ReadFile (GetFilename t)) as [data|e]; simpl.
  - destruct (yaml_Unmarshal data t1) as [t1' [e1|]] eqn:Hy; simpl;
      pose proof (Hky _ _ _ _ Hy) as E2.
    + destruct (Unlock t1') as [t'|] eqn:HU; simpl; [|congruence].
      rewrite (HkU _ _ HU). congruence.
    + destruct (env_Parse t1') as [t2 [e2|]] eqn:He; simpl;
        pose proof (Hke _ _ _ He) as E3.
      * destruct (Unlock t2) as [t'|] eqn:HU; simpl; [|congruence].
        rewrite (HkU _ _ HU). congruence.
      * destruct (findMissing_at _ _) as [[e3|]|msg]; simpl;
          (destruct (Unlock t2) as [t'|] eqn:HU; simpl; [|congruence]);
          rewrite (HkU _ _ HU); congruence.
  - destruct (env_Parse t1) as [t2 [e2|]] eqn:He; simpl;
      pose proof (Hke _ _ _ He) as E3.
    + destruct (Unlock t2) as [t'|] eqn:HU; simpl; [|congruence].
      rewrite (HkU _ _ HU). congruence.
    + destruct (findMissing_at _ _) as [[e3|]|msg]; simpl;
        (destruct (Unlock t2) as [t'|] eqn:HU; simpl; [|congruence]);
        rewrite (HkU _ _ HU); congruence.
Qed.

(** When neither source has anything for the object, [Load] hands it
    back as it was, the guard included. *)
Lemma Load_restores_untouched_object `{!GuardedAccessors T} (c : Boxed T) :
  (∀ data s s' err, yaml_Unmarshal data s = (s', err) → s' = s) →
  (∀ s s' err, env_Parse s = (s', err) → s' = s) →
  (Load' c).1.2 = obj_of c.
Proof.
  intros Hy He. unfold_run.
  destruct (bool_decide _); [done|].
  set (t := obj_of c).
  destruct (Lock t) as [t1|] eqn:HL; [|done]. simpl.
  pose proof (Unlock_Lock _ _ HL) as HU.
  destruct (ioutil_ReadFile (GetFilename t)) as [data|e]; simpl.
  - destruct (yaml_Unmarshal data t1) as [t1' [e1|]] eqn:Hy1; simpl;
      rewrite (Hy _ _ _ _ Hy1); [by rewrite HU|].
    destruct (env_Parse t1) as [t2 [e2|]] eqn:He1; simpl;
      rewrite (He _ _ _ He1); [by rewrite HU|].
    destruct (findMissing_at _ _) as [[e3|]|msg]; simpl; by rewrite HU.
  - destruct (env_Parse t1) as [t2 [e2|]] eqn:He1; simpl;
      rewrite (He _ _ _ He1); [by rewrite HU|].
    destruct (findMissing_at _ _) as [[e3|]|msg]; simpl; by rewrite HU.
Qed.

(** C10.  [Load] never changes the source location nor the armed flag
    of the object, the decoders having no access to them, and every field
    that neither decoder writes holds after [Load], however the call ends,
    the value it held before; so do in particular the defaults the owner
    has put in fields that neither source mentions.  When the sources
    have nothing at all for the object, it comes back entirely as it
    was. *)
Theorem Load_leaves_the_rest_alone `{!GuardedAccessors T} (c : Boxed T) :
  decoders_keep yaml_Unmarshal env_Parse GetFilename →
  decoders_keep yaml_Unmarshal env_Parse IsListening →
  GetFilename (Load' c).1.2 = GetFilename (obj_of c)
  ∧ IsListening (Load' c).1.2 = IsListening (obj_of c)
  ∧ (∀ A (obs : T → A),
       decoders_keep yaml_Unmarshal env_Parse obs →
       guard_keeps obs →
       obs (Load' c).1.2 = obs (obj_of c))
  ∧ (decoders_keep yaml_Unmarshal env_Parse id → (Load' c).1.2 = obj_of c).
Proof.
  intros Hfile Harmed. split; [|split; [|split]].
  - apply Load_frame; [|done]. split; [apply GetFilename_Lock|apply GetFilename_Unlock].
  - apply Load_frame; [|done]. split; [apply IsListening_Lock|apply IsListening_Unlock].
  - intros A obs Hd Hg. by apply Load_frame.
  - intros [Hy He]. by apply Load_restores_untouched_object.
Qed.

End LoadFacts.

(** ** Arming the reload *)

Section Arming.

Context {T : Type} `{Configterface T} `{!GuardedAccessors T}.

Lemma ListenForSignals_first (t t1 : T) :
  IsListening t = false →
  Lock t = Some t1 →
  ListenForSignals (ByPointer t)
  = (Done (), SetListening t true,
     [Lock_ev; SetListening_ev true; Notify_ev; Go_ev; Unlock_ev]).
Proof.
  intros Hl HL. unfold_run. rewrite HL. simpl.
  rewrite (IsListening_Lock _ _ HL), Hl. simpl.
  by rewrite Unlock_SetListening, (Unlock_Lock _ _ HL).
Qed.

Lemma ListenForSignals_armed (s s1 : T) :
  IsListening s = true →
  Lock s = Some s1 →
  ListenForSignals (ByPointer s) = (Done (), s, [Lock_ev; Unlock_ev]).
Proof.
  intros Hl HL. unfold_run. rewrite HL. simpl.
  rewrite (IsListening_Lock _ _ HL), Hl. simpl.
  by rewrite (Unlock_Lock _ _ HL).
Qed.

Lemma arm_repeatedly_armed (n : nat) (s s1 : T) :
  IsListening s = true →
  Lock s = Some s1 →
  arm_repeatedly n s = (s, concat (replicate n [Lock_ev; Unlock_ev])).
Proof.
  intros Hl HL. induction n as [|n IH]; [done|].
  simpl. by rewrite (ListenForSignals_armed s s1), IH.
Qed.

Lemma count_event_quiet (e : event) (n : nat) :
  e ∉ [Lock_ev; Unlock_ev] →
  count_event e (concat (replicate n [Lock_ev; Unlock_ev])) = 0.
Proof.
  intros He. unfold count_event. induction n as [|n IH]; [done|].
  simpl. rewrite !filter_cons.
  rewrite !decide_False; [exact IH| |];
    intros <-; apply He; apply list_elem_of_In; simpl; tauto.
Qed.

(** C9.  On an object that is not armed and whose guard is free, the
    first call of [ListenForSignals] sets the flag, subscribes and starts
    the one goroutine.  Every later call on the object finds the flag set
    and returns having taken and released the guard and nothing more: the
    object is what it was, nothing is subscribed or started again.  Over
    any number of calls the flag is set once and one goroutine is started. *)
Theorem arming_is_idempotent (t t1 : T) :
  IsListening t = false →
  Lock t = Some t1 →
  let armed := SetListening t true in
  ListenForSignals (ByPointer t)
  = (Done (), armed, [Lock_ev; SetListening_ev true; Notify_ev; Go_ev; Unlock_ev])
  ∧ IsListening armed = true
  ∧ ListenForSignals (ByPointer armed) = (Done (), armed, [Lock_ev; Unlock_ev])
  ∧ (∀ n, (arm_repeatedly (S n) t).1 = armed
          ∧ count_event (SetListening_ev true) (arm_repeatedly (S n) t).2 = 1
          ∧ count_event Go_ev (arm_repeatedly (S n) t).2 = 1).
Proof.
  intros Hl HL armed.
  assert (IsListening armed = true) as Ha by apply IsListening_SetListening.
  assert (Lock armed = Some (SetListening t1 true)) as HLa.
  { unfold armed. by rewrite Lock_SetListening, HL. }
  split; [by apply (ListenForSignals_first t t1)|].
  split; [done|].
  split; [by apply (ListenForSignals_armed armed _ Ha HLa)|].
  intros n. simpl. rewrite (ListenForSignals_first t t1) by done. fold armed.
  rewrite (arm_repeatedly_armed n armed _ Ha HLa). simpl.
  split; [done|].
  unfold count_event at 1 2. rewrite !filter_cons. simpl.
  fold (count_event (SetListening_ev true) (concat (replicate n [Lock_ev; Unlock_ev]))).
  fold (count_event Go_ev (concat (replicate n [Lock_ev; Unlock_ev]))).
  rewrite !count_event_quiet; [done| |];
    intros Hin; apply list_elem_of_In in Hin; simpl in Hin; intuition discriminate.
Qed.

End Arming.

(** ** The implementations at hand are well behaved *)

#[global] Instance Config_GuardedAccessors : GuardedAccessors Config.
Proof.
  split; try done;
    intros [d f l [[|]]]; intros; simpl in *;
    unfold Config_Lock, Config_Unlock, sync.Lock, sync.Unlock in *; simpl in *;
    by simplify_eq.
Qed.

#[global] Instance Service_GuardedAccessors : GuardedAccessors Service.
Proof.
  split; try done;
    intros [p t h [d f l [[|]]]]; intros; simpl in *;
    unfold Config_Lock, Config_Unlock, sync.Lock, sync.Unlock in *; simpl in *;
    by simplify_eq.
Qed.

#[global] Instance Path_GuardedAccessors : GuardedAccessors Path.
Proof.
  split; try done;
    intros [p l [[|]]]; intros; simpl in *;
    unfold sync.Lock, sync.Unlock in *; simpl in *; by simplify_eq.
Qed.

(** ** The debug level *)

Lemma map_index_debugLevelMap (level : string) :
  map_index debugLevelMap level = rank level.
Proof.
  unfold map_index, debugLevelMap, rank.
  destruct (decide (level = "error")) as [->|H1]; [done|].
  destruct (decide (level = "warning")) as [->|H2]; [done|].
  destruct (decide (level = "info")) as [->|H3]; [done|].
  destruct (decide (level = "verbose")) as [->|H4]; [done|].
  by rewrite !lookup_insert_ne, lookup_empty by done.
Qed.

Lemma rank_unknown (level : string) : level ∉ known_levels → rank level = 0%Z.
Proof.
  intros Hun. unfold rank.
  repeat (destruct (decide _) as [->|?];
          [exfalso; apply Hun; apply list_elem_of_In; simpl; tauto|]).
  done.
Qed.

(** C6, as the code has it.  [DebugLevel] compares ranks, with
    error < warning < info < verbose at 0, 1, 2, 3; a string that is none
    of the four has rank 0, the rank of error, on either side.  So with an
    unknown current level the answer is true for error and for any unknown
    level, and false for warning, info and verbose. *)
Theorem DebugLevel_compares_ranks (c : Config) (level : string) :
  DebugLevel c level = (rank (Debug c) >=? rank level)%Z
  ∧ rank <$> known_levels = [0; 1; 2; 3]%Z
  ∧ (level ∉ known_levels → rank level = 0%Z)
  ∧ (Debug c ∉ known_levels →
     (DebugLevel c level = true ↔ level ∉ ["warning"; "info"; "verbose"])).
Proof.
  assert (DebugLevel c level = (rank (Debug c) >=? rank level)%Z) as Hd.
  { unfold DebugLevel. by rewrite !map_index_debugLevelMap. }
  split; [done|]. split; [done|]. split; [apply rank_unknown|].
  intros Hun. rewrite Hd, (rank_unknown _ Hun). unfold rank.
  destruct (decide (level = "error")) as [->|H1].
  { split; [|done]. intros _ Hin.
    apply list_elem_of_In in Hin. simpl in Hin. intuition discriminate. }
  destruct (decide (level = "warning")) as [->|H2].
  { split; [done|]. intros Hn. exfalso. apply Hn, list_elem_of_In. simpl. tauto. }
  destruct (decide (level = "info")) as [->|H3].
  { split; [done|]. intros Hn. exfalso. apply Hn, list_elem_of_In. simpl. tauto. }
  destruct (decide (level = "verbose")) as [->|H4].
  { split; [done|]. intros Hn. exfalso. apply Hn, list_elem_of_In. simpl. tauto. }
  split; [|done]. intros _ Hin.
  apply list_elem_of_In in Hin. simpl in Hin. intuition congruence.
Qed.

(** ** The validator and indirection *)

Lemma findMissing_at_pointers_to (n : nat) (f : reflect.flag) (d : reflect.govalue) :
  findMissing_at f (pointers_to n d)
  = findMissing_at (Nat.iter n reflect.Elem_flag f) d.
Proof.
  revert f. induction n as [|n IH]; intros f; [done|].
  simpl. rewrite IH. f_equal. clear. induction n as [|n IH]; [done|].
  simpl. by rewrite IH.
Qed.

Lemma Elem_flag_iter (n : nat) :
  Nat.iter (S n) reflect.Elem_flag (reflect.flags (reflect.ValueOf (reflect.VBool false)))
  = through_pointer.
Proof. induction n as [|n IH]; [done|]. change (Nat.iter (S (S n)) ?g ?x) with (g (Nat.iter (S n) g x)). by rewrite IH. Qed.

(** C7, as the code has it.  The validator follows pointers for as long
    as it finds pointers, not one level only.  A nil pointer at any depth
    gives the error ["nil pointer!"]; a value that is neither a pointer
    nor a struct, at any depth, gives ["Not a struct!"]; a struct behind
    any number of pointers, at least one, gets the verdict it gets behind
    one pointer. *)
Theorem validator_follows_every_pointer (n : nat) :
  findMissingRequiredFields (Some (pointers_to n (reflect.VPtr None)))
  = Ret (Some (errors_New "nil pointer!"))
  ∧ (∀ d, reflect.Kind_of d ∉ [reflect.Struct; reflect.Ptr] →
        findMissingRequiredFields (Some (pointers_to n d))
        = Ret (Some (errors_New "Not a struct!")))
  ∧ (∀ fields,
        findMissingRequiredFields (Some (pointers_to (S n) (reflect.VStruct fields)))
        = findMissingRequiredFields (Some (reflect.VPtr (Some (reflect.VStruct fields))))).
Proof.
  unfold findMissingRequiredFields. split; [|split].
  - by rewrite findMissing_at_pointers_to.
  - intros d Hk. rewrite findMissing_at_pointers_to. by apply findMissing_at_not_struct.
  - intros fields. rewrite findMissing_at_pointers_to.
    change (reflect.flags (reflect.ValueOf ?d))
      with (reflect.flags (reflect.ValueOf (reflect.VBool false))).
    by rewrite Elem_flag_iter.
Qed.

(** ** The theorems at work on the sample objects *)

Lemma Load_names_the_unset_required_fields_witness :
  (Load disk_without_file empty_yaml empty_env (ByPointer sample_Service)).1.1
  = Done (Some (MissingRequiredStructFields ["Port"; "Host"])).
Proof.
  edestruct (Load_names_the_unset_required_fields
               disk_without_file empty_yaml empty_env
               sample_Service held_Service held_Service held_Service sample_Service)
    as [Hnames _]; [reflexivity..|].
  apply Hnames. discriminate.
Defined.

(** C1.  [Load] is to return [MissingRequiredStructFields] naming every
    required field that holds its type's unset value.  It does not when
    such a field is not exported: the field [secret] is marked required and
    holds the empty string, the zero test asks reflection for its value,
    reflection refuses ([Value.Interface] on a value obtained through an
    unexported field), and the call panics where it should have returned
    the error naming [secret].  Inside a nested struct the zero test skips
    the fields it cannot set; the loop of the validator has no such
    test. *)
Theorem hidden_required_field_panics :
  required secret_field = true
  ∧ reflect.equals_Zero (reflect.VString (secret sample_Vault)) = true
  ∧ Load disk_without_file empty_yaml empty_env (ByPointer sample_Vault)
    = (Panicked "reflect.Value.Interface: cannot return value obtained from unexported field or method",
       sample_Vault,
       [ReadFile_ev "whatever.yaml"; Lock_ev; Parse_ev; Validate_ev; Unlock_ev])
  ∧ Load disk_without_file empty_yaml empty_env (ByPointer sample_Vault)
    ≠ (Done (Some (MissingRequiredStructFields ["secret"])),
       sample_Vault,
       [ReadFile_ev "whatever.yaml"; Lock_ev; Parse_ev; Validate_ev; Unlock_ev]).
Proof.
  split; [reflexivity|]. split; [reflexivity|]. split; [reflexivity|].
  intros Hreturned. discriminate Hreturned.
Qed.

Lemma Load_without_readable_file_witness :
  Load disk_without_file sample_yaml sample_env (ByPointer sample_Service)
  = (Done (Some (MissingRequiredStructFields ["Host"])),
     mkService 8080 30 None fresh_Config,
     [ReadFile_ev "whatever.yaml"; Lock_ev; Parse_ev; Validate_ev; Unlock_ev]).
Proof.
  edestruct (Load_without_readable_file
               disk_without_file sample_yaml sample_env
               sample_Service held_Service
               (mkService 8080 30 None (base held_Service))
               (mkService 8080 30 None fresh_Config)
               (os_error "open whatever.yaml: no such file or directory") None)
    as [Hrun _]; [reflexivity..|].
  exact Hrun.
Defined.

Lemma sample_fields_apart_from_guard (name : string) :
  name ≠ "Config" → guard_keeps (T:=Service) (field name).
Proof.
  intros Hn. split; intros [p t h [d f l [[|]]]] s'; simpl;
    unfold Config_Lock, Config_Unlock, sync.Lock, sync.Unlock; simpl;
    intros [= <-]; unfold field, field_of; simpl;
    repeat (destruct (decide _); [done|]); done.
Qed.

Lemma environment_overrides_file_witness :
  field "Port" (Load disk_with_file sample_yaml sample_env (ByPointer sample_Service)).1.2
  = Some (reflect.VInt reflect.int 8080)
  ∧ field "Timeout" (Load disk_with_file sample_yaml sample_env (ByPointer sample_Service)).1.2
    = Some (reflect.VInt reflect.int 5).
Proof.
  edestruct (environment_overrides_file
               disk_with_file sample_yaml sample_env
               sample_Service held_Service
               (mkService 1 5 None (base held_Service))
               (mkService 8080 5 None (base held_Service))
               (mkService 8080 5 None fresh_Config) [])
    as (_ & _ & Henv & Hfile); [reflexivity..|].
  split.
  - apply (Henv _ (field "Port")).
    + by intros s s' [= <-].
    + by apply sample_fields_apart_from_guard.
  - apply (Hfile _ (field "Timeout")).
    + by intros s s' [= <-].
    + by intros s s' err [= <- <-].
    + by apply sample_fields_apart_from_guard.
Defined.

Lemma reference_field_unset_iff_nil_witness :
  isZero (reflect.mkValue through_pointer (reflect.VPtr (Some (reflect.VString ""))))
  = Ret false
  ∧ isZero (reflect.mkValue through_pointer (reflect.VSlice (Some []))) = Ret false
  ∧ isZero (reflect.mkValue through_pointer (reflect.VMap (Some []))) = Ret false
  ∧ isZero (reflect.mkValue through_pointer (reflect.VPtr None)) = Ret true.
Proof.
  split; [|split; [|split]].
  - apply (reference_field_unset_iff_nil through_pointer
             (reflect.VPtr (Some (reflect.VString "")))).
    apply list_elem_of_In. simpl. tauto.
  - apply (reference_field_unset_iff_nil through_pointer (reflect.VSlice (Some []))).
    apply list_elem_of_In. simpl. tauto.
  - apply (reference_field_unset_iff_nil through_pointer (reflect.VMap (Some []))).
    apply list_elem_of_In. simpl. tauto.
  - apply (reference_field_unset_iff_nil through_pointer (reflect.VPtr None)).
    apply list_elem_of_In. simpl. tauto.
Defined.

Lemma sample_decoders_keep_guard : decoders_keep_guard sample_yaml sample_env.
Proof.
  split; [intros data s s' err [= <- <-]|intros s s' err [= <- <-]];
    destruct s as [p t h [d f l [[|]]]]; simpl;
    unfold Config_Unlock, sync.Unlock; simpl; intros [x Hx]; by simplify_eq.
Qed.

Lemma Load_takes_guard_after_read_witness :
  let run := Load disk_with_file sample_yaml sample_env (ByPointer sample_Service) in
  head run.2 = Some (ReadFile_ev "whatever.yaml")
  ∧ outside_guard is_read run.2 = true
  ∧ under_guard is_merge_step run.2 = true
  ∧ last run.2 = Some Unlock_ev
  ∧ held_after run.2 false = false
  ∧ came_back run.1.1 = true.
Proof.
  intros run.
  assert (is_Some (Unlock held_Service)) as Hfree by (by exists sample_Service).
  exact (Load_takes_guard_after_read
           disk_with_file sample_yaml sample_env sample_Service held_Service
           eq_refl Hfree sample_decoders_keep_guard).
Defined.

(** That the read, too, happens under the guard fails on the first event
    of any run. *)
Lemma read_happens_before_guard_is_taken :
  (Load disk_with_file sample_yaml sample_env (ByPointer sample_Service)).2
  = [ReadFile_ev "whatever.yaml"; Lock_ev; Unmarshal_ev; Parse_ev; Validate_ev; Unlock_ev]
  ∧ under_guard (λ e, is_read e || is_merge_step e)
      (Load disk_with_file sample_yaml sample_env (ByPointer sample_Service)).2
    = false.
Proof. split; reflexivity. Qed.

Lemma DebugLevel_compares_ranks_witness :
  DebugLevel fresh_Config "error" = true ↔ "error" ∉ ["warning"; "info"; "verbose"].
Proof.
  apply (DebugLevel_compares_ranks fresh_Config "error").
  intros Hin. apply list_elem_of_In in Hin. simpl in Hin. intuition discriminate.
Defined.

(** An unknown current level does not compare false against every known
    level: against error it compares true. *)
Lemma unknown_level_reaches_error :
  ¬ (∀ (c : Config) (level : string),
       Debug c ∉ known_levels → level ∈ known_levels → DebugLevel c level = false).
Proof.
  intros Hall.
  assert (DebugLevel fresh_Config "error" = false) as Hfalse.
  { apply Hall.
    - intros Hin. apply list_elem_of_In in Hin. simpl in Hin. intuition discriminate.
    - apply list_elem_of_In. simpl. tauto. }
  discriminate Hfalse.
Qed.

Lemma validator_follows_every_pointer_witness :
  findMissingRequiredFields
    (Some (reflect.VPtr (Some (reflect.VPtr (Some (reflect.VInt reflect.int 7))))))
  = Ret (Some (errors_New "Not a struct!")).
Proof.
  apply (validator_follows_every_pointer 2).
  intros Hin. apply list_elem_of_In in Hin. simpl in Hin. intuition discriminate.
Defined.

(** What is found behind one pointer need not be a struct for the
    validator to succeed: a pointer to a pointer to a struct passes. *)
Lemma validator_goes_past_one_pointer :
  ¬ (∀ p : reflect.govalue,
       reflect.Kind_of p ≠ reflect.Struct →
       findMissingRequiredFields (Some (reflect.VPtr (Some p)))
       = Ret (Some (errors_New "Not a struct!"))).
Proof.
  intros Hall.
  assert (findMissingRequiredFields
            (Some (reflect.VPtr (Some (reflect.VPtr (Some (reflect.VStruct []))))))
          = Ret (Some (errors_New "Not a struct!"))) as Hrejected
    by (apply Hall; discriminate).
  discriminate Hrejected.
Qed.

Lemma struct_only_refuses {T} `{Configterface T} (parse : T → T * option error) :
  env_refuses_other_than_structs (struct_only parse).
Proof.
  intros s Hk. unfold struct_only. destruct (decide _) as [Hs|_]; [by destruct Hk|].
  by eexists.
Qed.

Lemma Path_decoders_keep_guard :
  decoders_keep_guard (T:=Path) empty_yaml (struct_only empty_env).
Proof.
  split.
  - intros data s s' err [= <- _]. done.
  - intros s s' err [= <- _]. done.
Qed.

Lemma misuse_by_value_panics_behind_pointer_is_returned_witness :
  Load disk_without_file empty_yaml empty_env (ByValue sample_Service)
  = (Panicked "Load only accepts pointers to structs", sample_Service, [])
  ∧ (Load disk_without_file empty_yaml (struct_only empty_env) (ByPointer sample_Path)).1.1
    = Done (Some (env_error "Expected a pointer to a Struct"))
  ∧ (Validate_ev ∉
       (Load disk_without_file empty_yaml (struct_only empty_env) (ByPointer sample_Path)).2)
  ∧ (on_SIGHUP disk_without_file empty_yaml (struct_only empty_env)
       (ByPointer sample_Path) sample_Path).1
    = (Panicked "config file error: Expected a pointer to a Struct", sample_Path).
Proof.
  destruct (misuse_by_value_panics_behind_pointer_is_returned (T:=Service)
              disk_without_file empty_yaml empty_env) as (Hvalue & _).
  destruct (misuse_by_value_panics_behind_pointer_is_returned (T:=Path)
              disk_without_file empty_yaml (struct_only empty_env))
    as (_ & Hpointer & Hrefused & _ & Hreload).
  pose (held := mkPath "whatever.yaml" false (sync.mkMutex true)).
  split; [|split; [|split]].
  - apply Hvalue. discriminate.
  - refine (proj1 (Hpointer sample_Path held _ eq_refl _ Path_decoders_keep_guard)).
    + intros s Hin. apply list_elem_of_In in Hin. simpl in Hin. intuition discriminate.
    + by eexists.
  - apply Hrefused; [discriminate|]. apply struct_only_refuses.
  - exact (Hreload (ByPointer sample_Path) sample_Path sample_Path
             (env_error "Expected a pointer to a Struct")
             [ReadFile_ev "whatever.yaml"; Lock_ev; Parse_ev; Unlock_ev]
             eq_refl).
Defined.

(** A pointer to a value that is not a struct does not make [Load]
    panic.  With an environment decoder that insists on a struct the
    caller gets that decoder's error; and whatever the decoders are, as
    long as they leave the guard alone, the caller gets an error value. *)
Lemma not_a_struct_is_an_error_value :
  (Load disk_without_file empty_yaml (struct_only empty_env) (ByPointer sample_Path)).1.1
  = Done (Some (env_error "Expected a pointer to a Struct"))
  ∧ (∀ (read_file : string → list Byte.byte + error)
       (yaml : list Byte.byte → Path → Path * option error)
       (env : Path → Path * option error),
       decoders_keep_guard yaml env →
       ∃ e, (Load read_file yaml env (ByPointer sample_Path)).1.1 = Done (Some e)
            ∧ ∀ msg, (Load read_file yaml env (ByPointer sample_Path)).1.1 ≠ Panicked msg).
Proof.
  split; [reflexivity|].
  intros read_file yaml env Hkeep.
  rewrite (Load_not_a_struct read_file yaml env sample_Path
             (mkPath "whatever.yaml" false (sync.mkMutex true))); try done.
  - by eexists.
  - intros s Hin. apply list_elem_of_In in Hin. simpl in Hin. intuition discriminate.
Qed.

Lemma arming_is_idempotent_witness :
  ListenForSignals (ByPointer sample_Service)
  = (Done (), mkService 0 30 None (mkConfig "" "whatever.yaml" true (sync.mkMutex false)),
     [Lock_ev; SetListening_ev true; Notify_ev; Go_ev; Unlock_ev])
  ∧ count_event Go_ev (arm_repeatedly 5 sample_Service).2 = 1.
Proof.
  edestruct (arming_is_idempotent sample_Service held_Service)
    as (Hfirst & _ & _ & Hmany); [reflexivity..|].
  split; [exact Hfirst|]. apply (Hmany 4).
Defined.

Lemma sample_decoders_keep_bookkeeping :
  decoders_keep sample_yaml sample_env GetFilename
  ∧ decoders_keep sample_yaml sample_env IsListening
  ∧ decoders_keep sample_yaml sample_env (field "Host").
Proof.
  split; [|split]; (split; [intros data s s' err [= <- <-]|intros s s' err [= <- <-]]);
    by destruct s.
Qed.

Lemma Load_leaves_the_rest_alone_witness :
  let after := (Load disk_with_file sample_yaml sample_env (ByPointer sample_Service)).1.2 in
  GetFilename after = "whatever.yaml"
  ∧ IsListening after = false
  ∧ field "Host" after = Some (reflect.VPtr None).
Proof.
  destruct sample_decoders_keep_bookkeeping as (Hf & Hl & Hh).
  edestruct (Load_leaves_the_rest_alone
               disk_with_file sample_yaml sample_env (ByPointer sample_Service))
    as (Hfile & Harmed & Hfields & _); [exact Hf|exact Hl|].
  split; [exact Hfile|]. split; [exact Harmed|].
  exact (Hfields _ (field "Host") Hh (sample_fields_apart_from_guard "Host" ltac:(done))).
Defined.

(** * Further properties of the code *)

(** ** The zero test, kind by kind *)

(** [isZero] reaches a verdict on every value that can be set, whatever
    its kind and however deep it is nested. *)
Theorem isZero_decides_settable_values (v : reflect.Value) :
  reflect.CanSet v = true → ∃ z, isZero v = Ret z.
Proof.
  destruct v as [f d]. unfold reflect.CanSet, isZero. simpl.
  apply isZero_at_settable.
Qed.

Lemma isZero_decides_settable_values_witness :
  ∃ z, isZero (reflect.mkValue through_pointer (Service_value sample_Service)) = Ret z.
Proof.
  apply (isZero_decides_settable_values
           (reflect.mkValue through_pointer (Service_value sample_Service))).
  reflexivity.
Defined.

Lemma unset_value_Ret (f : reflect.flag) (d : reflect.govalue) (z : bool) :
  isZero_at f d = Ret z → unset_value f d = z.
Proof. unfold unset_value. by intros ->. Qed.

(** An array that can be set is unset exactly when every element is; an
    array without elements is unset. *)
Theorem isZero_array_iff_all_elements (f : reflect.flag) (elems : list reflect.govalue) :
  reflect.CanSet_flag f = true →
  isZero (reflect.mkValue f (reflect.VArray elems))
  = Ret (forallb (unset_value (reflect.Index_flag f)) elems)
  ∧ (isZero (reflect.mkValue f (reflect.VArray elems)) = Ret true ↔
     ∀ e, e ∈ elems → isZero (reflect.mkValue (reflect.Index_flag f) e) = Ret true).
Proof.
  intros Hf.
  assert (isZero (reflect.mkValue f (reflect.VArray elems))
          = Ret (forallb (unset_value (reflect.Index_flag f)) elems)) as Hloop.
  { unfold isZero. simpl.
    change (forallb (unset_value (reflect.Index_flag f)) elems)
      with (true && forallb (unset_value (reflect.Index_flag f)) elems).
    generalize true. induction elems as [|e elems IH]; intros z.
    - by rewrite andb_true_r.
    - destruct (isZero_at_settable e _ (CanSet_Index f Hf)) as [ze Hze].
      simpl. rewrite (unset_value_Ret _ _ _ Hze).
      destruct z; simpl.
      + rewrite Hze. simpl. rewrite IH. by destruct ze.
      + rewrite IH. done. }
  split; [exact Hloop|]. rewrite Hloop. split.
  - intros [= Hall] e He. unfold isZero. simpl.
    destruct (isZero_at_settable e _ (CanSet_Index f Hf)) as [ze Hze]. rewrite Hze.
    apply list_elem_of_In in He.
    pose proof (proj1 (forallb_forall _ _) Hall e He) as Hunset.
    by rewrite (unset_value_Ret _ _ _ Hze) in Hunset; subst.
  - intros Hall. f_equal. apply forallb_forall. intros e He.
    apply list_elem_of_In in He. specialize (Hall e He).
    unfold isZero in Hall. simpl in Hall. by apply unset_value_Ret.
Qed.

Lemma isZero_array_iff_all_elements_witness :
  isZero (reflect.mkValue through_pointer
            (reflect.VArray [reflect.VInt reflect.int 0; reflect.VInt reflect.int 7]))
  = Ret false
  ∧ isZero (reflect.mkValue through_pointer (reflect.VArray [])) = Ret true.
Proof.
  split.
  - exact (proj1 (isZero_array_iff_all_elements through_pointer
                    [reflect.VInt reflect.int 0; reflect.VInt reflect.int 7] eq_refl)).
  - exact (proj1 (isZero_array_iff_all_elements through_pointer [] eq_refl)).
Defined.

(** The zero test never fails on a struct: it is unset exactly when every
    field that can be set is unset, and the fields that cannot be set are
    not looked at.  So a struct without an exported field, and every
    struct that is not addressable or was reached through an unexported
    field, is unset whatever it holds. *)
Theorem isZero_struct_looks_at_settable_fields (f : reflect.flag)
    (fields : list (reflect.StructField * reflect.govalue)) :
  isZero (reflect.mkValue f (reflect.VStruct fields))
  = Ret (forallb (λ fld, implb (reflect.CanSet_flag (reflect.Field_flag f fld.1))
                          (unset f fld)) fields)
  ∧ (forallb (λ fld, negb (reflect.IsExported fld.1)) fields = true →
     isZero (reflect.mkValue f (reflect.VStruct fields)) = Ret true)
  ∧ (reflect.flagAddr f = false ∨ reflect.flagRO f = reflect.StickyRO →
     isZero (reflect.mkValue f (reflect.VStruct fields)) = Ret true).
Proof.
  assert (isZero (reflect.mkValue f (reflect.VStruct fields))
          = Ret (forallb (λ fld, implb (reflect.CanSet_flag (reflect.Field_flag f fld.1))
                                  (unset f fld)) fields)) as Hloop.
  { unfold isZero. simpl.
    match goal with |- _ = Ret ?b => change b with (true && b) end.
    generalize true. induction fields as [|[sf e] fields IH]; intros z.
    - by rewrite andb_true_r.
    - simpl. unfold unset at 1. unfold isZero. simpl.
      destruct (reflect.CanSet_flag (reflect.Field_flag f sf)) eqn:Hc; simpl.
      + destruct (isZero_at_settable e _ Hc) as [ze Hze]. rewrite Hze.
        destruct z; simpl; rewrite IH; [by destruct ze|done].
      + apply IH. }
  split; [exact Hloop|]. rewrite Hloop. split.
  - intros Hhidden. f_equal. apply forallb_forall. intros [sf e] Hin.
    pose proof (proj1 (forallb_forall _ _) Hhidden _ Hin) as Hsf. simpl in *.
    unfold reflect.CanSet_flag, reflect.Field_flag, reflect.is_ro. simpl.
    destruct (reflect.IsExported sf); [done|].
    destruct (reflect.Anonymous sf), (reflect.flagRO f), (reflect.flagAddr f); done.
  - intros Hf. f_equal. apply forallb_forall. intros [sf e] Hin. simpl.
    unfold reflect.CanSet_flag, reflect.Field_flag, reflect.is_ro. simpl.
    destruct Hf as [->| ->]; [done|].
    destruct (reflect.IsExported sf), (reflect.Anonymous sf), (reflect.flagAddr f); done.
Qed.

(** A required field of a kind that [isZero] compares with the zero value
    of its type (booleans, numbers, strings, channels, interfaces) is
    reported missing whenever it holds that zero value: an empty string, a
    zero or [false] set on purpose is not told from a field left alone. *)
Theorem zero_scalar_in_required_field_is_reported
    (pre post : list (reflect.StructField * reflect.govalue))
    (sf : reflect.StructField) (d : reflect.govalue) :
  required sf = true →
  compared_directly (reflect.Kind_of d) = true →
  reflect.equals_Zero d = true →
  all_required_inspectable through_pointer (pre ++ (sf, d) :: post) = true →
  ∃ names,
    findMissingRequiredFields
      (Some (reflect.VPtr (Some (reflect.VStruct (pre ++ (sf, d) :: post)))))
    = Ret (Some (MissingRequiredStructFields names))
    ∧ reflect.Name sf ∈ names.
Proof.
  intros Hreq Hkind Hzero Hins.
  assert (inspectable through_pointer (sf, d) = true) as Hsf.
  { unfold all_required_inspectable in Hins. rewrite forallb_app in Hins.
    apply andb_prop in Hins as [_ Hins]. simpl in Hins.
    apply andb_prop in Hins as [Hins _]. by rewrite Hreq in Hins. }
  assert (unset through_pointer (sf, d) = true) as Hunset.
  { unfold inspectable in Hsf. unfold unset. unfold isZero in *. simpl in *.
    destruct d as [b|t n|t bits|t re im|s|ch|fn|addr|elem|m|s|elems|fields|p];
      try discriminate Hkind; simpl in *;
      unfold reflect.Interface_equals_Zero in *; simpl in *;
      destruct (reflect.is_ro _); try discriminate Hsf; exact Hzero. }
  exists (unset_required_names through_pointer (pre ++ (sf, d) :: post)).
  assert (reflect.Name sf
          ∈ unset_required_names through_pointer (pre ++ (sf, d) :: post)) as Hin.
  { apply unset_required_names_spec. exists (sf, d).
    split; [apply list_elem_of_In, in_elt|]. done. }
  split; [|exact Hin].
  rewrite findMissingRequiredFields_pointer, findMissing_at_struct
    by (by apply all_required_inspectable_Forall).
  by destruct (unset_required_names through_pointer (pre ++ (sf, d) :: post));
    [inversion Hin|].
Qed.

Lemma zero_scalar_in_required_field_is_reported_witness :
  ∃ names,
    findMissingRequiredFields
      (Some (reflect.VPtr (Some (Service_value (mkService 0 30 (Some "db") fresh_Config)))))
    = Ret (Some (MissingRequiredStructFields names))
    ∧ "Port" ∈ names.
Proof.
  apply (zero_scalar_in_required_field_is_reported []
           [ (Timeout_field, reflect.VInt reflect.int 30);
             (Host_field, reflect.VPtr (Some (reflect.VString "db")));
             (reflect.mkStructField "Config" "" true [], Config_value fresh_Config) ]
           Port_field (reflect.VInt reflect.int 0)); reflexivity.
Defined.

(** ** Tags inside nested values *)

Lemma Field_flag_tag (f : reflect.flag) (sf : reflect.StructField) (tag : reflect.StructTag) :
  reflect.Field_flag f
    (reflect.mkStructField (reflect.Name sf) (reflect.PkgPath sf) (reflect.Anonymous sf) tag)
  = reflect.Field_flag f sf.
Proof. reflexivity. Qed.

(** The zero test reads no tag. *)
Lemma isZero_at_retag (g : reflect.StructField → reflect.StructTag) :
  ∀ (d : reflect.govalue) (f : reflect.flag), isZero_at f (retag g d) = isZero_at f d.
Proof.
  fix IH 1. intros d f.
  destruct d as [b|t n|t bits|t re im|s|ch|fn|addr|[e|]|[m|]|[s|]|elems|fields|[p|]];
    try reflexivity.
  - simpl. generalize true. revert elems. fix IHl 1. intros [|e elems] z.
    + reflexivity.
    + simpl. rewrite IH. destruct (and_then z (isZero_at (reflect.Index_flag f) e)) as [z'|msg];
        simpl; [apply IHl|reflexivity].
  - simpl. generalize true. revert fields. fix IHl 1. intros [|[sf e] fields] z.
    + reflexivity.
    + simpl. rewrite Field_flag_tag.
      destruct (reflect.CanSet_flag (reflect.Field_flag f sf)); [|apply IHl].
      rewrite IH.
      destruct (and_then z (isZero_at (reflect.Field_flag f sf) e)) as [z'|msg];
        simpl; [apply IHl|reflexivity].
Qed.

Lemma collect_missing_retag_inside (g : reflect.StructField → reflect.StructTag)
    (f : reflect.flag) fields missing :
  collect_missing f (retag_inside g fields) missing = collect_missing f fields missing.
Proof.
  revert missing. induction fields as [|[sf d] fields IH]; intros missing; [done|].
  simpl. destruct (bool_decide _); [|apply IH].
  unfold isZero. simpl. rewrite isZero_at_retag.
  destruct (isZero_at (reflect.Field_flag f sf) d) as [z|msg]; simpl; [apply IH|done].
Qed.

(** The validator reads the tags of the fields of the struct it is given
    and no others: whatever tags the fields of nested structs carry, at
    any depth, [required] included, the verdict is the same. *)
Theorem tags_of_nested_fields_do_not_count
    (g : reflect.StructField → reflect.StructTag)
    (fields : list (reflect.StructField * reflect.govalue)) :
  findMissingRequiredFields
    (Some (reflect.VPtr (Some (reflect.VStruct (retag_inside g fields)))))
  = findMissingRequiredFields (Some (reflect.VPtr (Some (reflect.VStruct fields))))
  ∧ (∀ v, isZero (reflect.mkValue (reflect.flags v) (retag g (reflect.data v))) = isZero v).
Proof.
  split.
  - rewrite !findMissingRequiredFields_pointer. simpl.
    by rewrite collect_missing_retag_inside.
  - intros [f d]. unfold isZero. simpl. apply isZero_at_retag.
Qed.

(** A required field of a nested struct that is left empty goes
    unreported. *)
Lemma nested_required_field_goes_unreported :
  findMissingRequiredFields (Some (reflect.VPtr (Some nested_required))) = Ret None.
Proof. reflexivity. Qed.

(** ** Ways out of a load cycle *)

Ltac not_in_run H := apply list_elem_of_In in H; simpl in H; intuition discriminate.

Section LoadExits.

Context {T : Type} `{Configterface T}.
Variable ioutil_ReadFile : string → list Byte.byte + error.
Variable yaml_Unmarshal : list Byte.byte → T → T * option error.
Variable env_Parse : T → T * option error.

Local Abbreviation Load' := (Load ioutil_ReadFile yaml_Unmarshal env_Parse).
Local Abbreviation file_pass' := (file_pass yaml_Unmarshal).

(** When the file is read and cannot be decoded, [Load] returns the
    decoder's error as it is and the cycle ends there: the environment is
    not decoded, nothing is validated, the guard is released, and the
    object stays as the failed decode left it. *)
Theorem failed_file_decode_ends_the_cycle (t t1 t1' t3 : T)
    (data : list Byte.byte) (e : error) :
  ioutil_ReadFile (GetFilename t) = inl data →
  Lock t = Some t1 →
  yaml_Unmarshal data t1 = (t1', Some e) →
  Unlock t1' = Some t3 →
  Load' (ByPointer t)
  = (Done (Some e), t3,
     [ReadFile_ev (GetFilename t); Lock_ev; Unmarshal_ev; Unlock_ev])
  ∧ (Parse_ev ∉ (Load' (ByPointer t)).2)
  ∧ (Validate_ev ∉ (Load' (ByPointer t)).2).
Proof.
  intros Hrd HL Hy HU.
  assert (Load' (ByPointer t)
          = (Done (Some e), t3,
             [ReadFile_ev (GetFilename t); Lock_ev; Unmarshal_ev; Unlock_ev])) as Hrun.
  { unfold_run. rewrite HL, Hrd. simpl. rewrite Hy. simpl. by rewrite HU. }
  rewrite Hrun. split; [done|]. split; intros Hin; not_in_run Hin.
Qed.

(** When the environment cannot be decoded, [Load] returns the decoder's
    error as it is, after the file step and without validating: the object
    keeps what the file and the failed decode wrote, the guard is
    released. *)
Theorem failed_env_decode_ends_the_cycle (t t1 t1' t2 t3 : T) (e : error) :
  Lock t = Some t1 →
  file_pass' (ioutil_ReadFile (GetFilename t)) t1 = (t1', None) →
  env_Parse t1' = (t2, Some e) →
  Unlock t2 = Some t3 →
  (Load' (ByPointer t)).1 = (Done (Some e), t3)
  ∧ last (Load' (ByPointer t)).2 = Some Unlock_ev
  ∧ (Validate_ev ∉ (Load' (ByPointer t)).2).
Proof.
  intros HL Hf He HU.
  rewrite (Load_env_error _ _ _ t t1 t1' t2 t3 e) by done. simpl.
  split; [done|].
  destruct (ioutil_ReadFile (GetFilename t)); simpl;
    (split; [done|]); intros Hin; not_in_run Hin.
Qed.

(** Validation takes place only when the guard was taken and both decode
    passes went through without error, and it is the object as the two
    passes left it that is validated: when the call comes back, it comes
    back with the validator's answer on that object. *)
Theorem validation_only_after_both_passes (t : T) :
  Validate_ev ∈ (Load' (ByPointer t)).2 →
  ∃ t1 t1' t2,
    Lock t = Some t1
    ∧ file_pass' (ioutil_ReadFile (GetFilename t)) t1 = (t1', None)
    ∧ env_Parse t1' = (t2, None)
    ∧ (came_back (Load' (ByPointer t)).1.1 = true →
       (Load' (ByPointer t)).1.1 = validation t2).
Proof.
  unfold validation, file_pass. unfold_run.
  destruct (Lock t) as [t1|] eqn:HL; simpl; [|intros Hin; not_in_run Hin].
  destruct (ioutil_ReadFile (GetFilename t)) as [data|e0]; simpl.
  - destruct (yaml_Unmarshal data t1) as [t1' [e1|]] eqn:Hy; simpl.
    { destruct (Unlock t1'); simpl; intros Hin; not_in_run Hin. }
    destruct (env_Parse t1') as [t2 [e2|]] eqn:He; simpl.
    { destruct (Unlock t2); simpl; intros Hin; not_in_run Hin. }
    intros _. exists t1, t1', t2. repeat (split; [done|]).
    destruct (findMissing_at _ _) as [[e3|]|msg]; simpl;
      destruct (Unlock t2); simpl; done.
  - destruct (env_Parse t1) as [t2 [e2|]] eqn:He; simpl.
    { destruct (Unlock t2); simpl; intros Hin; not_in_run Hin. }
    intros _. exists t1, t1, t2. repeat (split; [done|]).
    destruct (findMissing_at _ _) as [[e3|]|msg]; simpl;
      destruct (Unlock t2); simpl; done.
Qed.

(** [Load] returns no error only when every step has passed: the guard
    was taken, the file was decoded without error or could not be read,
    the environment was decoded without error, the validator found nothing
    missing on the result, and the guard was released; the object is then
    what the two decode passes made of it. *)
Theorem Load_succeeds_only_when_every_step_passed (c : Boxed T) :
  (Load' c).1.1 = Done None →
  reflect.Kind_of (as_any c) = reflect.Ptr
  ∧ ∃ t1 t1' t2 t3,
      Lock (obj_of c) = Some t1
      ∧ file_pass' (ioutil_ReadFile (GetFilename (obj_of c))) t1 = (t1', None)
      ∧ env_Parse t1' = (t2, None)
      ∧ findMissingRequiredFields (Some (as_any (at_state c t2))) = Ret None
      ∧ Unlock t2 = Some t3
      ∧ (Load' c).1.2 = t3.
Proof.
  unfold file_pass. unfold Load, Load_body.
  destruct (bool_decide _) eqn:Hk; [discriminate|].
  apply bool_decide_eq_false in Hk. apply dec_stable in Hk.
  intros Hdone. split; [exact Hk|]. revert Hdone.
  unfold mbind, M_bind, mret, M_ret, defer, call_ReadFile, call_Lock, call_Unlock,
    call_Unmarshal, call_Parse, call_findMissingRequiredFields. simpl.
  set (t := obj_of c).
  destruct (Lock t) as [t1|] eqn:HL; simpl; [|discriminate].
  destruct (ioutil_ReadFile (GetFilename t)) as [data|e0]; simpl.
  - destruct (yaml_Unmarshal data t1) as [t1' [e1|]] eqn:Hy; simpl.
    { destruct (Unlock t1'); simpl; discriminate. }
    destruct (env_Parse t1') as [t2 [e2|]] eqn:He; simpl.
    { destruct (Unlock t2); simpl; discriminate. }
    destruct (findMissing_at _ _) as [[e3|]|msg] eqn:Hv; simpl;
      destruct (Unlock t2) as [t3|] eqn:HU; simpl; try discriminate.
    intros _. by exists t1, t1', t2, t3.
  - destruct (env_Parse t1) as [t2 [e2|]] eqn:He; simpl.
    { destruct (Unlock t2); simpl; discriminate. }
    destruct (findMissing_at _ _) as [[e3|]|msg] eqn:Hv; simpl;
      destruct (Unlock t2) as [t3|] eqn:HU; simpl; try discriminate.
    intros _. by exists t1, t1, t2, t3.
Qed.

(** A reload after a signal leaves an armed object armed, so that arming
    it again, its guard free, still does nothing. *)
Theorem reload_keeps_the_object_armed `{!GuardedAccessors T} (s : T) :
  decoders_keep yaml_Unmarshal env_Parse IsListening →
  IsListening s = true →
  let after :=
    (on_SIGHUP ioutil_ReadFile yaml_Unmarshal env_Parse (ByPointer s) s).1.2 in
  IsListening after = true
  ∧ (∀ s1, Lock after = Some s1 →
       ListenForSignals (ByPointer after) = (Done (), after, [Lock_ev; Unlock_ev])).
Proof.
  intros Hkeep Harmed after.
  assert (after = (Load' (ByPointer s)).1.2) as Hafter.
  { unfold after, on_SIGHUP, Load, mbind, M_bind. simpl.
    destruct (Load_body _ _ _ (ByPointer s) s) as [[[[e|]| | |] s'] tr]; done. }
  assert (IsListening after = true) as Hstill.
  { rewrite Hafter, <- Harmed.
    apply (Load_frame ioutil_ReadFile yaml_Unmarshal env_Parse IsListening (ByPointer s));
      [|done].
    split; [apply IsListening_Lock|apply IsListening_Unlock]. }
  split; [done|]. intros s1 HL. by apply (ListenForSignals_armed after s1).
Qed.

End LoadExits.

(** ** What arming changes *)

Section ArmingFrame.

Context {T : Type} `{Configterface T} `{!GuardedAccessors T}.

(** Whatever it is given and however it ends, [ListenForSignals] leaves
    the object as it was or sets its armed flag, the latter only when the
    flag was not set; it never clears the flag, never changes the source
    location, and changes nothing that neither the guard nor
    [SetListening] changes. *)
Theorem ListenForSignals_only_sets_the_flag (c : Boxed T) :
  let after := (ListenForSignals c).1.2 in
  (after = obj_of c
   ∨ (IsListening (obj_of c) = false ∧ after = SetListening (obj_of c) true))
  ∧ (IsListening (obj_of c) = true → IsListening after = true)
  ∧ GetFilename after = GetFilename (obj_of c)
  ∧ (∀ A (obs : T → A),
       (∀ t l, obs (SetListening t l) = obs t) → obs after = obs (obj_of c)).
Proof.
  intros after.
  assert (after = obj_of c
          ∨ (IsListening (obj_of c) = false ∧ after = SetListening (obj_of c) true))
    as Hcases.
  { unfold after. unfold_run.
    destruct (bool_decide _); [by left|].
    set (t := obj_of c).
    destruct (Lock t) as [t1|] eqn:HL; simpl; [|by left].
    rewrite (IsListening_Lock _ _ HL).
    destruct (IsListening t) eqn:Hl; simpl.
    - rewrite (Unlock_Lock _ _ HL). by left.
    - rewrite Unlock_SetListening, (Unlock_Lock _ _ HL). by right. }
  split; [exact Hcases|].
  split; [|split].
  - intros Harmed. destruct Hcases as [->|[Hl _]]; [done|congruence].
  - destruct Hcases as [->|[_ ->]]; [done|apply GetFilename_SetListening].
  - intros A obs Hobs. destruct Hcases as [->|[_ ->]]; [done|apply Hobs].
Qed.

End ArmingFrame.

(** ** The message of [MissingRequiredStructFields] *)

Lemma list_ascii_of_string_app (s1 s2 : string) :
  String.list_ascii_of_string (s1 +:+ s2)
  = String.list_ascii_of_string s1 ++ String.list_ascii_of_string s2.
Proof. induction s1 as [|a s1 IH]; [done|]. simpl. by rewrite IH. Qed.

Lemma TrimLeft_clean (cutset chars : list Ascii.ascii) :
  forallb (λ a, negb (bool_decide (a ∈ cutset))) chars = true →
  TrimLeft cutset chars = chars.
Proof.
  destruct chars as [|a chars]; [done|]. simpl.
  intros [Ha _]%andb_prop. by destruct (bool_decide (a ∈ cutset)).
Qed.

Lemma bracket_free_join (names : list string) :
  forallb bracket_free names = true → bracket_free (join " " names) = true.
Proof.
  unfold bracket_free. induction names as [|n names IH]; [done|].
  intros [Hn Hrest]%andb_prop. specialize (IH Hrest).
  destruct names as [|n' names]; [exact Hn|].
  change (join " " (n :: n' :: names)) with (n +:+ " " +:+ join " " (n' :: names)).
  rewrite !list_ascii_of_string_app, !forallb_app, Hn, IH. done.
Qed.

Lemma Trim_brackets_chars (body : list Ascii.ascii) :
  let cs := String.list_ascii_of_string "[]" in
  forallb (λ a, negb (bool_decide (a ∈ cs))) body = true →
  rev (TrimLeft cs (rev (TrimLeft cs
         (String.list_ascii_of_string "[" ++ body ++ String.list_ascii_of_string "]"))))
  = body.
Proof.
  intros cs Hbody. destruct body as [|a body]; [reflexivity|].
  assert (TrimLeft cs (String.list_ascii_of_string "[" ++ (a :: body)
                       ++ String.list_ascii_of_string "]")
          = (a :: body) ++ String.list_ascii_of_string "]") as ->.
  { change (TrimLeft cs ((a :: body) ++ String.list_ascii_of_string "]")
            = (a :: body) ++ String.list_ascii_of_string "]").
    simpl in Hbody. apply andb_prop in Hbody as [Ha _].
    simpl. by destruct (bool_decide (a ∈ cs)). }
  rewrite rev_app_distr.
  change (rev (TrimLeft cs (rev (a :: body))) = a :: body).
  rewrite TrimLeft_clean; [apply rev_involutive|].
  rewrite forallb_forall in Hbody. apply forallb_forall.
  intros a' Ha'. apply Hbody. by apply in_rev.
Qed.

(** For names without brackets, as the names of struct fields are, the
    message is the fixed sentence followed by the names in the order of
    the slice, one space between two names and no bracket around them. *)
Theorem Error_lists_the_names (names : list string) :
  forallb bracket_free names = true →
  Error (MissingRequiredStructFields names)
  = "The following struct fields have missing values: " +:+ join " " names.
Proof.
  intros Hnames. simpl. f_equal.
  pose proof (bracket_free_join names Hnames) as Hbody. unfold bracket_free in Hbody.
  unfold Trim, Sprintf_v. rewrite !list_ascii_of_string_app.
  rewrite (Trim_brackets_chars _ Hbody).
  apply String.string_of_list_ascii_of_string.
Qed.

Lemma Error_lists_the_names_witness :
  Error (MissingRequiredStructFields ["Port"; "Host"])
  = "The following struct fields have missing values: Port Host".
Proof. apply (Error_lists_the_names ["Port"; "Host"]). reflexivity. Defined.

(** ** Thresholds of the debug level *)

(** Which current levels pass which threshold: every level passes
    [error]; [warning] is passed by warning, info and verbose; [info] by
    info and verbose; [verbose] by verbose alone; and a level that passes
    a threshold passes every threshold of lower or equal rank. *)
Theorem DebugLevel_thresholds (c : Config) :
  DebugLevel c "error" = true
  ∧ (DebugLevel c "warning" = true ↔ Debug c ∈ ["warning"; "info"; "verbose"])
  ∧ (DebugLevel c "info" = true ↔ Debug c ∈ ["info"; "verbose"])
  ∧ (DebugLevel c "verbose" = true ↔ Debug c = "verbose")
  ∧ (∀ l1 l2, DebugLevel c l1 = true → (rank l2 ≤ rank l1)%Z → DebugLevel c l2 = true).
Proof.
  unfold DebugLevel. rewrite !map_index_debugLevelMap.
  assert (∀ l, l ∈ ["warning"; "info"; "verbose"] ↔
               l = "warning" ∨ l = "info" ∨ l = "verbose") as H3.
  { intros l. rewrite list_elem_of_In. simpl. intuition congruence. }
  assert (∀ l, l ∈ ["info"; "verbose"] ↔ l = "info" ∨ l = "verbose") as H2.
  { intros l. rewrite list_elem_of_In. simpl. intuition congruence. }
  rewrite H3, H2.
  change (rank "error") with 0%Z. change (rank "warning") with 1%Z.
  change (rank "info") with 2%Z. change (rank "verbose") with 3%Z.
  assert (rank (Debug c) = 0 ∧ Debug c ≠ "warning" ∧ Debug c ≠ "info" ∧ Debug c ≠ "verbose"
          ∨ rank (Debug c) = 1 ∧ Debug c = "warning"
          ∨ rank (Debug c) = 2 ∧ Debug c = "info"
          ∨ rank (Debug c) = 3 ∧ Debug c = "verbose")%Z as Hrank.
  { unfold rank.
    destruct (decide (Debug c = "error")) as [->|?];
      [left; repeat split; discriminate|].
    destruct (decide (Debug c = "warning")) as [He|?]; [by right; left|].
    destruct (decide (Debug c = "info")) as [He|?]; [by right; right; left|].
    destruct (decide (Debug c = "verbose")) as [He|?]; [by right; right; right|].
    by left. }
  split; [|split; [|split; [|split]]].
  - destruct Hrank as [[-> _]|[[-> _]|[[-> _]|[-> _]]]]; done.
  - rewrite Z.geb_le. destruct Hrank as [(-> & ? & ? & ?)|[[-> ->]|[[-> ->]|[-> ->]]]];
      intuition (first [lia | congruence | discriminate]).
  - rewrite Z.geb_le. destruct Hrank as [(-> & ? & ? & ?)|[[-> ->]|[[-> ->]|[-> ->]]]];
      intuition (first [lia | congruence | discriminate]).
  - rewrite Z.geb_le. destruct Hrank as [(-> & ? & ? & ?)|[[-> ->]|[[-> ->]|[-> ->]]]];
      intuition (first [lia | congruence | discriminate]).
  - intros l1 l2. rewrite !map_index_debugLevelMap, !Z.geb_le. lia.
Qed.

(** ** Fields that are not required *)

Lemma collect_missing_required_only (f : reflect.flag) fields missing :
  collect_missing f (filter (λ fld, required fld.1) fields) missing
  = collect_missing f fields missing.
Proof.
  revert missing. induction fields as [|[sf d] fields IH]; intros missing; [done|].
  rewrite filter_cons.
  destruct (decide _) as [Hd|Hd]; simpl in Hd; unfold required in Hd; simpl;
    destruct (bool_decide (reflect.Get (reflect.Tag sf) "required" = "true")) eqn:Hreq;
    try (by destruct Hd); [|apply IH].
  destruct (isZero _) as [z|msg]; simpl; [apply IH|done].
Qed.

(** The validator never inspects and never reports a field that is not
    tagged [required:"true"]: its answer on a struct is its answer on the
    required fields alone, and a struct without a required field passes
    whatever it holds. *)
Theorem validator_ignores_fields_not_required
    (fields : list (reflect.StructField * reflect.govalue)) :
  findMissingRequiredFields (Some (reflect.VPtr (Some (reflect.VStruct fields))))
  = findMissingRequiredFields
      (Some (reflect.VPtr (Some (reflect.VStruct (filter (λ fld, required fld.1) fields)))))
  ∧ (forallb (λ fld, negb (required fld.1)) fields = true →
     findMissingRequiredFields (Some (reflect.VPtr (Some (reflect.VStruct fields))))
     = Ret None).
Proof.
  rewrite !findMissingRequiredFields_pointer. simpl.
  rewrite collect_missing_required_only. split; [done|].
  intros Hnone.
  assert (filter (λ fld : reflect.StructField * reflect.govalue, required fld.1) fields = [])
    as Hempty.
  { induction fields as [|fld fields IH]; [done|].
    simpl in Hnone. apply andb_prop in Hnone as [Hfld Hrest].
    rewrite filter_cons, decide_False; [by apply IH|].
    destruct (required fld.1); [discriminate Hfld|intros []]. }
  rewrite <- collect_missing_required_only, Hempty. done.
Qed.

Lemma validator_ignores_fields_not_required_witness :
  findMissingRequiredFields (Some (reflect.VPtr (Some (Config_value fresh_Config))))
  = Ret None.
Proof.
  apply (validator_ignores_fields_not_required
           [ (reflect.mkStructField "Debug" "" false [("yaml", "debug"); ("env", "DEBUG")],
              reflect.VString "");
             (reflect.mkStructField "filename" goconfig_path false [],
              reflect.VString "whatever.yaml");
             (reflect.mkStructField "listening" goconfig_path false [],
              reflect.VBool false);
             (reflect.mkStructField "Mutex" "" true [], Mutex_value (sync.mkMutex false)) ]).
  reflexivity.
Defined.

(** ** The accessors of [Config] *)

(** [SetFilename] and [SetListening] write what [GetFilename] and
    [IsListening] read, each leaves alone what the other one writes, the
    debug level and the guard; the last name set is the one that counts,
    and it is the path that [Load] asks the file system for. *)
Theorem Config_accessors (c : Config) (name : string) (l : bool) :
  Config_GetFilename (Config_SetFilename c name) = name
  ∧ Config_IsListening (Config_SetListening c l) = l
  ∧ Config_IsListening (Config_SetFilename c name) = Config_IsListening c
  ∧ Config_GetFilename (Config_SetListening c l) = Config_GetFilename c
  ∧ Config_SetFilename (Config_SetListening c l) name
    = Config_SetListening (Config_SetFilename c name) l
  ∧ (∀ other, Config_SetFilename (Config_SetFilename c other) name
              = Config_SetFilename c name)
  ∧ (∀ level, DebugLevel (Config_SetFilename (Config_SetListening c l) name) level
              = DebugLevel c level)
  ∧ Mutex (Config_SetFilename (Config_SetListening c l) name) = Mutex c
  ∧ (∀ read_file yaml env,
       head (Load read_file yaml env (ByPointer (Config_SetFilename c name))).2
       = Some (ReadFile_ev name)).
Proof.
  destruct c as [d f a m]. repeat (split; [done|]).
  intros read_file yaml env. unfold Load, Load_body. simpl.
  unfold mbind. unfold M_bind at 1. unfold call_ReadFile. simpl.
  match goal with
  | |- head (match ?rest with _ => _ end).2 = _ => by destruct rest as [[o t] tr]
  end.
Qed.

(** ** The further theorems at work on the sample objects *)

Lemma failed_file_decode_ends_the_cycle_witness :
  Load disk_with_file broken_yaml sample_env (ByPointer sample_Service)
  = (Done (Some (yaml_error "yaml: line 2: mapping values are not allowed in this context")),
     mkService 1 30 None fresh_Config,
     [ReadFile_ev "whatever.yaml"; Lock_ev; Unmarshal_ev; Unlock_ev]).
Proof.
  edestruct (failed_file_decode_ends_the_cycle
               disk_with_file broken_yaml sample_env
               sample_Service held_Service
               (mkService 1 30 None (base held_Service))
               (mkService 1 30 None fresh_Config) [])
    as [Hrun _]; [reflexivity..|].
  exact Hrun.
Defined.

Lemma failed_env_decode_ends_the_cycle_witness :
  (Load disk_with_file sample_yaml broken_env (ByPointer sample_Service)).1
  = (Done (Some (env_error "strconv.ParseInt: parsing PORT: invalid syntax")),
     mkService 1 5 None fresh_Config).
Proof.
  edestruct (failed_env_decode_ends_the_cycle
               disk_with_file sample_yaml broken_env
               sample_Service held_Service
               (mkService 1 5 None (base held_Service))
               (mkService 1 5 None (base held_Service))
               (mkService 1 5 None fresh_Config))
    as [Hrun _]; [reflexivity..|].
  exact Hrun.
Defined.

Lemma validation_only_after_both_passes_witness :
  ∃ t1 t1' t2,
    Lock sample_Service = Some t1
    ∧ file_pass sample_yaml (disk_with_file "whatever.yaml") t1 = (t1', None)
    ∧ sample_env t1' = (t2, None)
    ∧ (came_back (Load disk_with_file sample_yaml sample_env (ByPointer sample_Service)).1.1
       = true →
       (Load disk_with_file sample_yaml sample_env (ByPointer sample_Service)).1.1
       = validation t2).
Proof.
  apply (validation_only_after_both_passes
           disk_with_file sample_yaml sample_env sample_Service).
  apply list_elem_of_In. simpl. tauto.
Defined.

Lemma Load_succeeds_only_when_every_step_passed_witness :
  ∃ t1 t1' t2 t3,
    Lock (mkService 0 30 (Some "db") fresh_Config) = Some t1
    ∧ file_pass sample_yaml (disk_with_file "whatever.yaml") t1 = (t1', None)
    ∧ sample_env t1' = (t2, None)
    ∧ findMissingRequiredFields (Some (as_any (ByPointer t2))) = Ret None
    ∧ Unlock t2 = Some t3
    ∧ (Load disk_with_file sample_yaml sample_env
         (ByPointer (mkService 0 30 (Some "db") fresh_Config))).1.2 = t3.
Proof.
  apply (Load_succeeds_only_when_every_step_passed
           disk_with_file sample_yaml sample_env
           (ByPointer (mkService 0 30 (Some "db") fresh_Config))).
  reflexivity.
Defined.

Lemma ListenForSignals_only_sets_the_flag_witness :
  GetFilename (ListenForSignals (ByPointer sample_Service)).1.2
  = GetFilename sample_Service
  ∧ Port (ListenForSignals (ByPointer sample_Service)).1.2 = Port sample_Service
  ∧ Host (ListenForSignals (ByPointer sample_Service)).1.2 = Host sample_Service.
Proof.
  pose proof (ListenForSignals_only_sets_the_flag (ByPointer sample_Service)) as Hf.
  cbv zeta in Hf. destruct Hf as (_ & _ & Hname & Hobs).
  split; [exact Hname|].
  split; [exact (Hobs _ Port (λ _ _, eq_refl))|exact (Hobs _ Host (λ _ _, eq_refl))].
Defined.

Lemma reload_keeps_the_object_armed_witness :
  IsListening
    (on_SIGHUP disk_with_file sample_yaml sample_env
       (ByPointer armed_Service) armed_Service).1.2
  = true.
Proof.
  destruct sample_decoders_keep_bookkeeping as (_ & Hkeep & _).
  apply (reload_keeps_the_object_armed
           disk_with_file sample_yaml sample_env armed_Service Hkeep eq_refl).
Defined.
